(** * Organization Policy notifier: a shallow embedding of [src/main.py]

    The script compares the constraint names stored in a baseline blob with
    the names currently listed by the policy API, opens a pull request,
    posts to a chat webhook and to a social network for every new name, and
    finally rewrites the baseline.

    Python strings are modelled by [string]; one [ascii] stands for one
    code point below 256.  Lists are [list], the Python [set] is a [gset],
    the bucket and the local file system are [gmap]s from names to
    contents.  Effects are threaded through a small state and exception
    monad whose state records every outward side effect in a trace. *)

From Stdlib Require Import Ascii String List Sorting.Permutation.
From stdpp Require Import base decidable option list sorting gmap strings.

Local Open Scope string_scope.
Local Open Scope list_scope.

(** ** Python string primitives *)

Module Py.

Definition LF : ascii := "010"%char.
Definition CR : ascii := "013"%char.
Arguments LF : simpl never.
Arguments CR : simpl never.

(** [str.isspace] on one code point below 256: the ASCII controls
    0x09-0x0D and 0x1C-0x1F, the blank, NEL (0x85) and the no-break
    space (0xA0). *)
Definition isspace (c : ascii) : bool :=
  let n := nat_of_ascii c in
  (Nat.leb 9 n && Nat.leb n 13) || (Nat.leb 28 n && Nat.leb n 32)
  || Nat.eqb n 133 || Nat.eqb n 160.

(** [s.rstrip()] *)
Fixpoint rstrip (s : string) : string :=
  match s with
  | EmptyString => EmptyString
  | String c s' =>
      match rstrip s' with
      | EmptyString => if isspace c then EmptyString else String c EmptyString
      | r => String c r
      end
  end.

(** [sep.join(l)] *)
Fixpoint join (sep : string) (l : list string) : string :=
  match l with
  | [] => EmptyString
  | [x] => x
  | x :: rest => x ++ sep ++ join sep rest
  end.

(** Reading in text mode with the default [newline=None]: a carriage
    return, alone or followed by a line feed, is read as one line feed. *)
Fixpoint universal_newlines (s : string) : string :=
  match s with
  | EmptyString => EmptyString
  | String c rest =>
      if Ascii.eqb c CR then
        match rest with
        | String c' rest' =>
            if Ascii.eqb c' LF then String LF (universal_newlines rest')
            else String LF (universal_newlines rest)
        | EmptyString => String LF EmptyString
        end
      else String c (universal_newlines rest)
  end.

(** Iterating over a text file: every line keeps its line feed; a last
    line without one is produced only when it is not empty. *)
Fixpoint file_lines (s : string) : list string :=
  match s with
  | EmptyString => []
  | String c rest =>
      if Ascii.eqb c LF then String LF EmptyString :: file_lines rest
      else match file_lines rest with
           | [] => [String c EmptyString]
           | l :: ls => String c l :: ls
           end
  end.

(** [for line in open(path, 'r')] *)
Definition read_text_lines (content : string) : list string :=
  file_lines (universal_newlines content).

(** [s.startswith(p)] *)
Fixpoint startswith (p s : string) : bool :=
  match p, s with
  | EmptyString, _ => true
  | String a p', String b s' => Ascii.eqb a b && startswith p' s'
  | String _ _, EmptyString => false
  end.

(** [s.split(sep)] for a non-empty [sep]: the occurrences of [sep] are
    found from the left and do not overlap.  [skip] counts the
    characters of a found separator that are still to be passed. *)
Fixpoint split_go (sep : string) (skip : nat) (s : string) : list string :=
  match s with
  | EmptyString => [EmptyString]
  | String c rest =>
      match skip with
      | S k => split_go sep k rest
      | O =>
          if startswith sep s
          then EmptyString :: split_go sep (String.length sep - 1) rest
          else match split_go sep 0 rest with
               | p :: ps => String c p :: ps
               | [] => [String c EmptyString]
               end
      end
  end.

Definition split (sep s : string) : list string := split_go sep 0 s.

(** [l[-1]] on a list of strings known to be non-empty *)
Definition last_item (l : list string) : string := List.last l EmptyString.

(** [l.sort()] on strings: the order of [str] is the lexicographic
    order of the code points, and a sort by a total order has one
    result whatever the algorithm. *)
Definition sort (l : list string) : list string := merge_sort String.le l.

(** [set(l)] *)
Definition set (l : list string) : gset string := list_to_set l.

(** [list(s)]: the iteration order of a Python set is not specified;
    the model enumerates the set once, in the order of [elements]. *)
Definition list_of_set (s : gset string) : list string := elements s.

End Py.

(** ** The outside world *)

(** The exceptions the script tells apart.  [FailedPrecondition] is
    [google.api_core.exceptions.FailedPrecondition]; [AttributeError] is
    what a method call on [None] raises; every other exception is an
    [OtherException]. *)
Inductive exn : Type :=
| FailedPrecondition (msg : string)
| AttributeError (msg : string)
| OtherException (msg : string).

(** [str(e)], as printed by [print(e)] *)
Definition exn_str (e : exn) : string :=
  match e with
  | FailedPrecondition m | AttributeError m | OtherException m => m
  end.

(** One entry of the [constraints] sequence of the listing; the fields
    other than [name] are kept as one opaque text. *)
Record Constraint : Type := { name : string; details : string }.

(** The answer of [listAvailableOrgPolicyConstraints] *)
Record OrgResponse : Type := { constraints : list Constraint }.

(** [json.dumps(v, indent=4)]: the serialiser is not modelled, its result
    is represented by the value it serialises. *)
Inductive JsonText : Type := JsonDumps (v : OrgResponse).

(** The result of [repo.update_file]; [commit_url] is [result['commit'].url]. *)
Record CommitResult : Type := { commit_url : string }.

(** The four credentials of [get_twitter_secrets] *)
Record TwitterCreds : Type := {
  consumer_key : option string;
  consumer_key_secret : option string;
  access_token : option string;
  access_token_secret : option string
}.

(** The environment variables read with [getenv] *)
Record Config : Type := {
  ORG_ID : string;
  POLICY_BUCKET : string;
  POLICY_FILE : string;
  FILE_LOCATION : string;
  S_PROJECT : string;
  S_VERSION : option string;
  S_SLACK_NAME : string;
  S_TOKEN_NAME : string;
  CONSUMER_KEY_NAME : string;
  CONSUMER_KEY_SECRET_NAME : string;
  ACCESS_TOKEN_NAME : string;
  ACCESS_TOKEN_SECRET_NAME : string
}.

(** What the GitHub API answers to the calls of [create_pr], for a given
    token.  [None] and [false] stand for a call that raises. *)
Record GitHubAnswers : Type := {
  get_repo : bool;
  get_branch : option string;
  create_git_ref : bool;
  get_contents : option (string * string);
  update_file : option CommitResult;
  create_pull : bool
}.

(** The services the script talks to.  The policy API is asked several
    times in one run, so its answer depends on the number of the query;
    the other services answer by what they are sent.  A call gives its
    value ([inr]) or the exception it raises ([inl]); for the webhook the
    value is the status code of the HTTP response. *)
Record World : Type := {
  org_policy_api : nat -> exn + OrgResponse;
  secret_manager : string -> exn + string;
  github : option string -> GitHubAnswers;
  slack_webhook : option string -> string -> exn + nat;
  tweepy_auth : TwitterCreds -> exn + unit;
  twitter_update_status : TwitterCreds -> string -> exn + unit;
  today : string
}.

(** Outward side effects, in the order they happen *)
Inductive Event : Type :=
| EvCreateBranch (ref sha : string)
| EvUpdateFile (path message : string) (content : JsonText) (branch : string)
| EvCreatePull (title head base : string)
| EvSlackPost (url : option string) (text : string)
| EvTweet (content : string)
| EvUpload (blob content : string).

(** The mutable part: the blobs of the policy bucket, the local files, the
    number of listing queries made so far, the side effects and the
    printed lines. *)
Record State : Type := {
  bucket : gmap string string;
  files : gmap string string;
  api_calls : nat;
  trace : list Event;
  stdout : list string
}.

(** ** The monad: state, [sys.exit] and exceptions *)

Inductive Result (A : Type) : Type :=
| Normal (a : A)
| SysExit (code : nat)
| Raised (e : exn).
Arguments Normal {A} a.
Arguments SysExit {A} code.
Arguments Raised {A} e.

Definition M (A : Type) : Type := State -> Result A * State.

Definition ret {A} (a : A) : M A := fun st => (Normal a, st).

Definition bind {A B} (m : M A) (k : A -> M B) : M B :=
  fun st =>
    match m st with
    | (Normal a, st') => k a st'
    | (SysExit c, st') => (SysExit c, st')
    | (Raised e, st') => (Raised e, st')
    end.

Declare Scope py_scope.
Delimit Scope py_scope with py.
Notation "x <- m ;; k" := (bind m (fun x => k))
  (at level 100, m at next level, right associativity) : py_scope.
Notation "m ;; k" := (bind m (fun _ => k))
  (at level 100, right associativity) : py_scope.
Local Open Scope py_scope.

Definition sys_exit {A} (code : nat) : M A := fun st => (SysExit code, st).
Definition raise {A} (e : exn) : M A := fun st => (Raised e, st).

(** A call to a service: its value, or the exception it raises *)
Definition call {A} (r : exn + A) : M A :=
  match r with inl e => raise e | inr a => ret a end.

(** [try: body except ...: handler].  [handler e] is [None] when no
    [except] clause matches [e].  No [try] body of the script calls
    [sys.exit], so [SysExit] passes through. *)
Definition try_except {A} (body : M A) (handler : exn -> option (M A)) : M A :=
  fun st =>
    match body st with
    | (Raised e, st') =>
        match handler e with
        | Some h => h st'
        | None => (Raised e, st')
        end
    | r => r
    end.

(** [for x in l: body] *)
Fixpoint for_each {A} (l : list A) (body : A -> M unit) : M unit :=
  match l with
  | [] => ret tt
  | x :: rest => body x ;; for_each rest body
  end.

Definition print (line : string) : M unit :=
  fun st => (Normal tt,
    {| bucket := bucket st; files := files st; api_calls := api_calls st;
       trace := trace st; stdout := stdout st ++ [line] |}).

Definition emit (e : Event) : M unit :=
  fun st => (Normal tt,
    {| bucket := bucket st; files := files st; api_calls := api_calls st;
       trace := trace st ++ [e]; stdout := stdout st |}).

(** The number of the next listing query *)
Definition next_query : M nat :=
  fun st => (Normal (api_calls st),
    {| bucket := bucket st; files := files st; api_calls := S (api_calls st);
       trace := trace st; stdout := stdout st |}).

(** [storage_client.list_blobs(bucket)], as the list of the blob names *)
Definition list_blobs : M (list string) :=
  fun st => (Normal (elements (dom (bucket st))), st).

(** [open(path, 'w').write(text)] *)
Definition write_file (path text : string) : M unit :=
  fun st => (Normal tt,
    {| bucket := bucket st; files := <[path := text]> (files st);
       api_calls := api_calls st; trace := trace st; stdout := stdout st |}).

(** The content of a local file; a missing file raises. *)
Definition read_file (path : string) : M string :=
  fun st =>
    match files st !! path with
    | Some text => (Normal text, st)
    | None => (Raised (OtherException "FileNotFoundError"), st)
    end.

(** [blob.upload_from_filename(path)]: the blob is overwritten. *)
Definition upload_from_filename (blob path : string) : M unit :=
  text <- read_file path ;;
  (fun st => (Normal tt,
     {| bucket := <[blob := text]> (bucket st); files := files st;
        api_calls := api_calls st; trace := trace st ++ [EvUpload blob text];
        stdout := stdout st |})).

(** [blob.download_to_filename(path)]; a missing blob raises. *)
Definition download_to_filename (blob path : string) : M unit :=
  fun st =>
    match bucket st !! blob with
    | Some text => write_file path text st
    | None => (Raised (OtherException "NotFound"), st)
    end.

(** ** The script *)

Section Script.

Variable cfg : Config.
Variable w : World.

Definition newline : string := String Py.LF EmptyString.

(** The text written to the local file: ['\n'.join(new_policies)] *)
Definition baseline_text (new_policies : list string) : string :=
  Py.join newline new_policies.

(** The list read back: [[line.rstrip() for line in policy_file]] *)
Definition baseline_lines (policy_file : string) : list string :=
  map Py.rstrip (Py.read_text_lines policy_file).

(** [list(set(current_policies) - set(old_policies))] *)
Definition new_policies_of (current_policies old_policies : list string)
  : list string :=
  Py.list_of_set (Py.set current_policies ∖ Py.set old_policies).

(** [client.secret_version_path(project, secret, version)] *)
Definition secret_version_path (project secret version : string) : string :=
  "projects/" ++ project ++ "/secrets/" ++ secret ++ "/versions/" ++ version.

(** [get_latest_secret]: only [FailedPrecondition] has an [except]
    clause; the function then falls off its end and returns [None]. *)
Definition get_latest_secret (secret_name : string) : M (option string) :=
  let secret_project := S_PROJECT cfg in
  let secret_version := default "latest" (S_VERSION cfg) in
  let secret_location :=
    secret_version_path secret_project secret_name secret_version in
  try_except
    (print ("Getting " ++ secret_name ++ " secret.") ;;
     response <- call (secret_manager w secret_location) ;;
     let decoded_secret := Py.rstrip response in
     ret (Some decoded_secret))
    (fun e =>
       match e with
       | FailedPrecondition _ => Some (print (exn_str e) ;; ret None)
       | _ => None
       end).

(** [list_org_policies] *)
Definition list_org_policies : M OrgResponse :=
  n <- next_query ;;
  try_except
    (call (org_policy_api w n))
    (fun e => Some (print (exn_str e) ;; sys_exit 1)).

(** [constraint_transform] *)
Definition constraint_transform : M (list string) :=
  org_response <- list_org_policies ;;
  let constraints := constraints org_response in
  ret (map name constraints).

(** [upload_policy_file]: it asks the policy API for the listing it
    saves, and its last statement is [sys.exit(0)], so it returns to no
    caller. *)
Definition upload_policy_file {A} : M A :=
  new_policies <- constraint_transform ;;
  let source_file_name := FILE_LOCATION cfg in
  let destination_blob_name := POLICY_FILE cfg in
  write_file source_file_name (baseline_text new_policies) ;;
  upload_from_filename destination_blob_name source_file_name ;;
  print "New Policies Uploaded. Exiting." ;;
  sys_exit 0.

(** [download_policy_file] *)
Definition download_policy_file : M (list string) :=
  let source_blob_name := POLICY_FILE cfg in
  let destination_file_name := FILE_LOCATION cfg in
  download_to_filename source_blob_name destination_file_name ;;
  policy_file <- read_file destination_file_name ;;
  let old_policies := baseline_lines policy_file in
  print "Org Policy File Downloaded from GCS Bucket" ;;
  ret old_policies.

(** [fetch_old_policies] *)
Definition fetch_old_policies : M (list string) :=
  let source_blob_name := POLICY_FILE cfg in
  file_list <- list_blobs ;;
  if bool_decide (source_blob_name ∈ file_list)
  then download_policy_file
  else upload_policy_file.

(** [get_twitter_secrets]: the four secrets, in the order of the keys *)
Definition get_twitter_secrets : M TwitterCreds :=
  ck <- get_latest_secret (CONSUMER_KEY_NAME cfg) ;;
  cks <- get_latest_secret (CONSUMER_KEY_SECRET_NAME cfg) ;;
  at_ <- get_latest_secret (ACCESS_TOKEN_NAME cfg) ;;
  ats <- get_latest_secret (ACCESS_TOKEN_SECRET_NAME cfg) ;;
  ret {| consumer_key := ck; consumer_key_secret := cks;
         access_token := at_; access_token_secret := ats |}.

(** [create_twitter_connection]: an exception of the authentication is
    printed and the function returns [None]. *)
Definition create_twitter_connection : M (option TwitterCreds) :=
  creds <- get_twitter_secrets ;;
  try_except
    (call (tweepy_auth w creds) ;; ret (Some creds))
    (fun e => Some (print (exn_str e) ;; ret None)).

Definition slack_text (policy : string) : string :=
  "New Organization Policy Detected: " ++ policy.

(** The body of the loop of [post_to_slack]: the answer of the POST,
    whatever its status code, is dropped. *)
Definition slack_one (url : option string) (policy : string) : M unit :=
  let dict_policy := slack_text policy in
  try_except
    (emit (EvSlackPost url dict_policy) ;;
     call (slack_webhook w url dict_policy) ;;
     print "Posting to Slack")
    (fun e => Some (print (exn_str e) ;; sys_exit 1)).

(** [post_to_slack] *)
Definition post_to_slack (new_policies : list string) : M unit :=
  url <- get_latest_secret (S_SLACK_NAME cfg) ;;
  tweet <- create_twitter_connection ;;
  for_each new_policies (slack_one url).

(** [create_pr] *)
Definition create_pr (pr_file_content : JsonText) : M CommitResult :=
  github_token <- get_latest_secret (S_TOKEN_NAME cfg) ;;
  let todays_date := today w in
  let g := github w github_token in
  (if get_repo g then ret tt
   else print "There was an error reaching the repository." ;; sys_exit 1) ;;
  let repo_file_path := "policies/org_policy.json" in
  let default_branch := "main" in
  let target_branch := "new_policies" in
  source <- match get_branch g with
            | Some sha => ret sha
            | None => print "There was an error reaching the default branch." ;;
                      sys_exit 1
            end ;;
  print "Creating a new branch." ;;
  (if create_git_ref g
   then emit (EvCreateBranch ("refs/heads/" ++ target_branch) source)
   else print "There was an error creating our new branch." ;; sys_exit 1) ;;
  contents <- match get_contents g with
              | Some c => ret c
              | None => print "There was an error fetching the old policy file." ;;
                        sys_exit 1
              end ;;
  result <- match update_file g with
            | Some r =>
                emit (EvUpdateFile (fst contents) "New Policies Detected"
                        pr_file_content target_branch) ;;
                ret r
            | None => print "There was an error updating the old policy file." ;;
                      sys_exit 1
            end ;;
  print "Creating GitHub Pull Request." ;;
  (if create_pull g
   then emit (EvCreatePull ("New Policies Detected on " ++ todays_date)
                target_branch default_branch)
   else print "There was an error creating the pull request." ;; sys_exit 1) ;;
  ret result.

(** [create_pr_file_content] *)
Definition create_pr_file_content : M CommitResult :=
  org_response <- list_org_policies ;;
  let pr_file_content := JsonDumps org_response in
  create_pr pr_file_content.

Definition tweet_text (policy : string) (commit : CommitResult) : string :=
  "New Organization Policy Detected: "
  ++ Py.last_item (Py.split "constraints/" policy) ++ " " ++ commit_url commit.

(** [tweet.update_status(content)]; on [None] the attribute lookup raises. *)
Definition update_status (tweet : option TwitterCreds) (content : string) : M unit :=
  match tweet with
  | None => raise (AttributeError "'NoneType' object has no attribute 'update_status'")
  | Some api => emit (EvTweet content) ;; call (twitter_update_status w api content)
  end.

(** The body of the loop of [post_to_twitter] *)
Definition tweet_one (tweet : option TwitterCreds) (commit : CommitResult)
    (policy : string) : M unit :=
  let content_to_post := tweet_text policy commit in
  try_except
    (update_status tweet content_to_post)
    (fun e => Some (print (exn_str e) ;; sys_exit 1)).

(** [post_to_twitter] *)
Definition post_to_twitter (new_policies : list string) (commit : CommitResult)
  : M unit :=
  tweet <- create_twitter_connection ;;
  for_each new_policies (tweet_one tweet commit).

(** [compare_policies] *)
Definition compare_policies : M unit :=
  old_policies <- fetch_old_policies ;;
  current_policies <- constraint_transform ;;
  let current_policies := Py.sort current_policies in
  let old_policies := Py.sort old_policies in
  if bool_decide (current_policies = old_policies)
  then print "No new Org Policies Detected."
  else
    print "New Org Policies Detected!" ;;
    let new_policies := new_policies_of current_policies old_policies in
    github_commit <- create_pr_file_content ;;
    post_to_slack new_policies ;;
    post_to_twitter new_policies github_commit ;;
    upload_policy_file.

(** The [else] branch of [compare_policies], for the sorted lists *)
Definition notify_and_save (current_policies old_policies : list string)
  : M unit :=
  print "New Org Policies Detected!" ;;
  let new_policies := new_policies_of current_policies old_policies in
  github_commit <- create_pr_file_content ;;
  post_to_slack new_policies ;;
  post_to_twitter new_policies github_commit ;;
  upload_policy_file.

End Script.

(** The state a run starts from: a bucket, no local file, nothing done. *)
Definition initial (b : gmap string string) : State :=
  {| bucket := b; files := ∅; api_calls := 0; trace := []; stdout := [] |}.

(** The exit status of the process: the argument of [sys.exit], 0 when
    [compare_policies] returns, 1 when an exception is not caught. *)
Definition exit_status {A} (r : Result A) : nat :=
  match r with
  | Normal _ => 0
  | SysExit code => code
  | Raised _ => 1
  end.

(** ** Observations on a run *)

(** A whole run of the script on a bucket *)
Definition run (cfg : Config) (w : World) (b : gmap string string)
  : Result unit * State :=
  compare_policies cfg w (initial b).

(** The names in the answer to the [n]-th listing query, when it has one *)
Definition listing (w : World) (n : nat) : option (list string) :=
  match org_policy_api w n with
  | inr response => Some (map name (constraints response))
  | inl _ => None
  end.

Definition is_github (ev : Event) : bool :=
  match ev with
  | EvCreateBranch _ _ | EvUpdateFile _ _ _ _ | EvCreatePull _ _ _ => true
  | _ => false
  end.

Definition is_pull_request (ev : Event) : bool :=
  match ev with EvCreatePull _ _ _ => true | _ => false end.

Definition is_notification (ev : Event) : bool :=
  match ev with EvSlackPost _ _ | EvTweet _ => true | _ => false end.

(** The texts posted to the chat webhook, in order *)
Definition slack_posts (t : list Event) : list string :=
  omap (fun ev => match ev with EvSlackPost _ text => Some text | _ => None end) t.

(** The status updates sent to the social network, in order *)
Definition tweets (t : list Event) : list string :=
  omap (fun ev => match ev with EvTweet content => Some content | _ => None end) t.

(** The contents uploaded to the bucket, in order *)
Definition uploads (t : list Event) : list (string * string) :=
  omap (fun ev => match ev with EvUpload blob content => Some (blob, content)
                            | _ => None end) t.

(** The chat messages for a list of policies *)
Definition slack_events (url : option string) (l : list string) : list Event :=
  map (fun policy => EvSlackPost url (slack_text policy)) l.

(** The social posts for a list of policies *)
Definition tweet_events (commit : CommitResult) (l : list string) : list Event :=
  map (fun policy => EvTweet (tweet_text policy commit)) l.

(** The webhook answers the POST for [policy] (with any status code). *)
Definition slack_answered (w : World) (url : option string) (policy : string)
  : Prop :=
  exists status, slack_webhook w url (slack_text policy) = inr status.

(** Every chat message and social post comes after a pull request. *)
Definition pull_request_first (t : list Event) : Prop :=
  forall before ev after, t = before ++ ev :: after ->
    is_notification ev = true ->
    exists pr, pr ∈ before /\ is_pull_request pr = true.

(** A result that is not a successful end of the process: [sys.exit] was
    called with 1, or an exception was not caught. *)
Definition failed {A} (r : Result A) : Prop :=
  match r with
  | Normal _ => False
  | SysExit code => code = 1
  | Raised _ => True
  end.

(** The ways the [else] branch of [compare_policies] can go, from a state
    with side effects [t0], bucket [b0] and [n] queries made, for the new
    policies [new]: the GitHub calls [gh], then chat messages for a
    prefix [sl] of [new], then social posts for a prefix [tw], then the
    upload [up].  A later part is there only when the earlier ones are
    complete, and the run ends with status 0 exactly when the baseline is
    saved, with the names the policy API lists at that moment. *)
Definition notified (cfg : Config) (w : World) (new : list string)
    (t0 : list Event) (b0 : gmap string string) (n : nat)
    (r : Result unit) (st' : State) : Prop :=
  exists gh url commit sl tw up,
    trace st' = t0 ++ gh ++ slack_events url sl ++ tweet_events commit tw ++ up
    /\ Forall (fun ev => is_github ev = true) gh
    /\ sl `prefix_of` new /\ tw `prefix_of` new
    /\ (sl <> [] \/ tw <> [] \/ up <> [] ->
        (exists token, update_file (github w token) = Some commit)
        /\ exists gh0 title head base, gh = gh0 ++ [EvCreatePull title head base])
    /\ (tw <> [] \/ up <> [] -> sl = new)
    /\ (up <> [] -> tw = new)
    /\ ((r = SysExit 0
         /\ exists names,
              listing w (n + 1) = Some names
              /\ up = [EvUpload (POLICY_FILE cfg) (baseline_text names)]
              /\ bucket st' = <[POLICY_FILE cfg := baseline_text names]> b0)
        \/ (failed r /\ up = [] /\ bucket st' = b0)).

(** [effects st st' evs n]: from [st] to [st'] the bucket is untouched, the
    side effects [evs] happen and [n] listing queries are made.  Printed
    lines and local files are left out: nothing later in a run reads them
    before writing them. *)
Definition effects (st st' : State) (evs : list Event) (n : nat) : Prop :=
  bucket st' = bucket st
  /\ trace st' = trace st ++ evs
  /\ api_calls st' = api_calls st + n.

(** A computation that touches nothing but the printed lines and does not
    call [sys.exit] *)
Definition silent {A} (m : M A) : Prop :=
  forall st r st', m st = (r, st') ->
    effects st st' [] 0 /\ forall code, r <> SysExit code.

(** The path of the secret [secret_name] *)
Definition secret_path (cfg : Config) (secret_name : string) : string :=
  secret_version_path (S_PROJECT cfg) secret_name (default "latest" (S_VERSION cfg)).

(** The webhook URL [post_to_slack] gets from the secret store *)
Definition slack_url (cfg : Config) (w : World) : option string :=
  match secret_manager w (secret_path cfg (S_SLACK_NAME cfg)) with
  | inr secret => Some (Py.rstrip secret)
  | inl _ => None
  end.

(** Every secret can be read. *)
Definition secrets_readable (w : World) : Prop :=
  forall path, exists secret, secret_manager w path = inr secret.

(** GitHub accepts every call of [create_pr]. *)
Definition github_accepts (w : World) : Prop :=
  forall token,
    get_repo (github w token) = true
    /\ is_Some (get_branch (github w token))
    /\ create_git_ref (github w token) = true
    /\ is_Some (get_contents (github w token))
    /\ is_Some (update_file (github w token))
    /\ create_pull (github w token) = true.

(** The social network accepts the credentials and every status update. *)
Definition twitter_accepts (w : World) : Prop :=
  (forall creds, tweepy_auth w creds = inr tt)
  /\ (forall creds content, twitter_update_status w creds content = inr tt).

(** [c in s] *)
Fixpoint has_char (c : ascii) (s : string) : bool :=
  match s with
  | EmptyString => false
  | String a rest => Ascii.eqb a c || has_char c rest
  end.

(** The text after the last [c] of [s]; the whole of [s] when it has no
    [c].  With [c] the slash this is the readable suffix of a constraint
    name. *)
Fixpoint after_last (c : ascii) (s : string) : string :=
  match s with
  | EmptyString => EmptyString
  | String a rest =>
      if has_char c rest then after_last c rest
      else if Ascii.eqb a c then rest else s
  end.

(** [s[k:]] *)
Fixpoint drop_chars (k : nat) (s : string) : string :=
  match k, s with
  | S k', String _ rest => drop_chars k' rest
  | _, _ => s
  end.

(** A name that a line of the baseline file can hold: not empty, without
    a line feed or a carriage return, and not ending in white space. *)
Definition line_safe (n : string) : bool :=
  negb (String.eqb n EmptyString)
  && negb (has_char Py.LF n) && negb (has_char Py.CR n)
  && String.eqb (Py.rstrip n) n.

(** ** Sample data *)

Definition sample_cfg : Config :=
  {| ORG_ID := "42"; POLICY_BUCKET := "bucket"; POLICY_FILE := "policies.txt";
     FILE_LOCATION := "/tmp/policies.txt"; S_PROJECT := "project";
     S_VERSION := None; S_SLACK_NAME := "slack"; S_TOKEN_NAME := "token";
     CONSUMER_KEY_NAME := "ck"; CONSUMER_KEY_SECRET_NAME := "cks";
     ACCESS_TOKEN_NAME := "at"; ACCESS_TOKEN_SECRET_NAME := "ats" |}.

Definition response_of (names : list string) : OrgResponse :=
  {| constraints := map (fun n => {| name := n; details := "" |}) names |}.

Definition github_ok : GitHubAnswers :=
  {| get_repo := true; get_branch := Some "sha0"; create_git_ref := true;
     get_contents := Some ("policies/org_policy.json", "sha1");
     update_file := Some {| commit_url := "https://example.org/commit/1" |};
     create_pull := true |}.

(** A world where every service answers, the policy API with [answers n]
    to its [n]-th query *)
Definition sample_world (answers : nat -> list string) : World :=
  {| org_policy_api := fun n => inr (response_of (answers n));
     secret_manager := fun path => inr ("secret of " ++ path)%string;
     github := fun _ => github_ok;
     slack_webhook := fun _ _ => inr 200;
     tweepy_auth := fun _ => inr tt;
     twitter_update_status := fun _ _ => inr tt;
     today := "2020-07-01" |}.

(** The same world with another chat webhook *)
Definition with_slack (w : World) (hook : option string -> string -> exn + nat)
  : World :=
  {| org_policy_api := org_policy_api w; secret_manager := secret_manager w;
     github := github w; slack_webhook := hook; tweepy_auth := tweepy_auth w;
     twitter_update_status := twitter_update_status w; today := today w |}.

(** The same world with another secret store *)
Definition with_secrets (w : World) (store : string -> exn + string) : World :=
  {| org_policy_api := org_policy_api w; secret_manager := store;
     github := github w; slack_webhook := slack_webhook w;
     tweepy_auth := tweepy_auth w;
     twitter_update_status := twitter_update_status w; today := today w |}.

Definition lines (l : list string) : string := baseline_text l.

(** A policy API whose listing grows between the second and the third
    query of a run *)
Definition growing_listing (n : nat) : list string :=
  if Nat.ltb n 2 then ["constraints/a"; "constraints/b"; "constraints/c"]
  else ["constraints/a"; "constraints/b"; "constraints/c"; "constraints/d"].

Definition sample_bucket (text : string) : gmap string string :=
  {[ POLICY_FILE sample_cfg := text ]}.

(** ** The entry point of the Cloud Function *)

Section Kickoff.

(** [base64.b64decode(data).decode('utf-8')]: the decoder is a library
    function and is taken as it is, with the exception it raises on data
    that is not Base64 or not UTF-8. *)
Variable b64decode_utf8 : string -> exn + string.

(** [announce_kickoff(event, context)]: [event] is a dictionary, and
    [event['data']] raises [KeyError] when the key is missing. *)
Definition announce_kickoff (cfg : Config) (w : World)
    (event : gmap string string) : M unit :=
  pubsub_message <-
    match event !! "data" with
    | Some data => call (b64decode_utf8 data)
    | None => raise (OtherException "'data'")
    end ;;
  print pubsub_message ;;
  compare_policies cfg w.

End Kickoff.

(** Two states that differ at most in the printed lines, the first one
    having the lines [printed] before those of the second *)
Definition same_but_stdout (printed : list string) (st1 st2 : State) : Prop :=
  bucket st1 = bucket st2 /\ files st1 = files st2
  /\ api_calls st1 = api_calls st2 /\ trace st1 = trace st2
  /\ stdout st1 = printed ++ stdout st2.

(** A computation whose result and effects do not depend on what was
    printed before, and which only adds lines to what was printed *)
Definition stdout_blind {A} (m : M A) : Prop :=
  forall printed st1 st2, same_but_stdout printed st1 st2 ->
    fst (m st1) = fst (m st2)
    /\ same_but_stdout printed (snd (m st1)) (snd (m st2)).

(** The three GitHub side effects of a complete [create_pr] *)
Definition pull_request_events (w : World) (sha path : string)
    (content : JsonText) : list Event :=
  [EvCreateBranch "refs/heads/new_policies" sha;
   EvUpdateFile path "New Policies Detected" content "new_policies";
   EvCreatePull ("New Policies Detected on " ++ today w) "new_policies" "main"].

(** The same world with another policy API *)
Definition with_policy_api (w : World) (api : nat -> exn + OrgResponse) : World :=
  {| org_policy_api := api; secret_manager := secret_manager w;
     github := github w; slack_webhook := slack_webhook w;
     tweepy_auth := tweepy_auth w;
     twitter_update_status := twitter_update_status w; today := today w |}.

(** The same world with another answer of the social network to the
    credentials *)
Definition with_tweepy_auth (w : World) (auth : TwitterCreds -> exn + unit)
  : World :=
  {| org_policy_api := org_policy_api w; secret_manager := secret_manager w;
     github := github w; slack_webhook := slack_webhook w;
     tweepy_auth := auth;
     twitter_update_status := twitter_update_status w; today := today w |}.

(** The same world with other answers of GitHub *)
Definition with_github (w : World) (answers : option string -> GitHubAnswers)
  : World :=
  {| org_policy_api := org_policy_api w; secret_manager := secret_manager w;
     github := answers; slack_webhook := slack_webhook w;
     tweepy_auth := tweepy_auth w;
     twitter_update_status := twitter_update_status w; today := today w |}.

(** A carriage return followed by a line feed *)
Definition crlf : string := String Py.CR (String Py.LF EmptyString).

(** * Properties *)

(** ** Python primitives on examples *)

Example rstrip_line : Py.rstrip ("constraints/a" ++ newline) = "constraints/a".
Proof. reflexivity. Qed.

Example join_lines : Py.join newline ["a"; "b"] = String "a" (String Py.LF "b").
Proof. reflexivity. Qed.

Example file_lines_blank :
  Py.file_lines (String "a" (String Py.LF (String Py.LF "b")))
  = [String "a" newline; newline; "b"].
Proof. reflexivity. Qed.

Example universal_newlines_crlf :
  Py.read_text_lines (String "a" (String Py.CR (String Py.LF "b")))
  = [String "a" newline; "b"].
Proof. reflexivity. Qed.

Example split_suffix :
  Py.last_item (Py.split "constraints/" "constraints/iam.allowedPolicyMemberDomains")
  = "iam.allowedPolicyMemberDomains".
Proof. reflexivity. Qed.

Example split_many : Py.split "ab" "xabyabab" = ["x"; "y"; ""; ""].
Proof. reflexivity. Qed.

Example sort_three : Py.sort ["b"; "c"; "a"] = ["a"; "b"; "c"].
Proof. vm_compute. reflexivity. Qed.

(** The end-to-end scenario: baseline a, b; listing a, b, c. *)
Example run_scenario :
  let '(r, st) := run sample_cfg
      (sample_world (fun _ => ["constraints/a"; "constraints/b"; "constraints/c"]))
      (sample_bucket (lines ["constraints/b"; "constraints/a"])) in
  r = SysExit 0
  /\ slack_posts (trace st) = ["New Organization Policy Detected: constraints/c"]
  /\ tweets (trace st)
     = ["New Organization Policy Detected: c https://example.org/commit/1"]
  /\ uploads (trace st)
     = [("policies.txt", lines ["constraints/a"; "constraints/b"; "constraints/c"])].
Proof. vm_compute. repeat split; reflexivity. Qed.

(** ** Sorting and set difference *)

Lemma sort_eq_iff (l k : list string) : Py.sort l = Py.sort k <-> l ≡ₚ k.
Proof.
  unfold Py.sort. split.
  - intros E.
    rewrite <- (merge_sort_Permutation String.le l),
            <- (merge_sort_Permutation String.le k), E.
    reflexivity.
  - intros P.
    apply (Sorted_unique String.le).
    + apply Sorted_merge_sort, _.
    + apply Sorted_merge_sort, _.
    + rewrite !merge_sort_Permutation. exact P.
Qed.

Lemma set_sort (l : list string) : Py.set (Py.sort l) = Py.set l.
Proof.
  unfold Py.set, Py.sort.
  apply list_to_set_perm_L, merge_sort_Permutation.
Qed.


Lemma NoDup_new_policies_of (current old : list string) :
  NoDup (new_policies_of current old).
Proof. apply NoDup_elements. Qed.

(** ** The effect of each function of the script *)

Lemma effects_refl st : effects st st [] 0.
Proof. unfold effects. rewrite app_nil_r, Nat.add_0_r. done. Qed.

Lemma effects_trans st1 st2 st3 e1 e2 n1 n2 :
  effects st1 st2 e1 n1 -> effects st2 st3 e2 n2 ->
  effects st1 st3 (e1 ++ e2) (n1 + n2).
Proof.
  unfold effects. intros (-> & -> & ->) (-> & -> & ->).
  rewrite app_assoc, Nat.add_assoc. done.
Qed.

Lemma effects_silent st1 st2 st3 e n :
  effects st1 st2 [] 0 -> effects st2 st3 e n -> effects st1 st3 e n.
Proof. intros H1 H2. exact (effects_trans _ _ _ _ _ _ _ H1 H2). Qed.

Lemma effects_then_silent st1 st2 st3 e n :
  effects st1 st2 e n -> effects st2 st3 [] 0 -> effects st1 st3 e n.
Proof.
  intros H1 H2. pose proof (effects_trans _ _ _ _ _ _ _ H1 H2) as H.
  rewrite app_nil_r, Nat.add_0_r in H. exact H.
Qed.

Lemma print_effects line st : effects st (snd (print line st)) [] 0.
Proof. unfold effects. simpl. rewrite app_nil_r, Nat.add_0_r. done. Qed.

Lemma bind_inv {A B} (m : M A) (k : A -> M B) st r st' :
  bind m k st = (r, st') ->
  (exists a st1, m st = (Normal a, st1) /\ k a st1 = (r, st'))
  \/ (exists c, m st = (SysExit c, st') /\ r = SysExit c)
  \/ (exists e, m st = (Raised e, st') /\ r = Raised e).
Proof.
  unfold bind. destruct (m st) as [[a|c|e] st1]; intros H.
  - left. eauto.
  - right. left. injection H as <- <-. eauto.
  - right. right. injection H as <- <-. eauto.
Qed.

Lemma silent_bind {A B} (m : M A) (k : A -> M B) :
  silent m -> (forall a, silent (k a)) -> silent (bind m k).
Proof.
  intros Hm Hk st r st' H.
  apply bind_inv in H as [(a & st1 & H1 & H2)|[(c & H1 & ->)|(e & H1 & ->)]].
  - destruct (Hm _ _ _ H1) as [E1 _]. destruct (Hk _ _ _ _ H2) as [E2 N2].
    split; [exact (effects_silent _ _ _ _ _ E1 E2) | exact N2].
  - destruct (Hm _ _ _ H1) as [_ N1]. destruct (N1 c eq_refl).
  - destruct (Hm _ _ _ H1) as [E1 _]. split; [exact E1 | discriminate].
Qed.

Lemma silent_ret {A} (a : A) : silent (ret a).
Proof. intros st r st' [= <- <-]. split; [apply effects_refl | discriminate]. Qed.

Lemma silent_raise {A} e : silent (@raise A e).
Proof. intros st r st' [= <- <-]. split; [apply effects_refl | discriminate]. Qed.

Lemma silent_call {A} (x : exn + A) : silent (call x).
Proof. destruct x; [apply silent_raise | apply silent_ret]. Qed.

Lemma silent_print line : silent (print line).
Proof.
  intros st r st' [= <- <-]. split; [apply (print_effects line st) | discriminate].
Qed.

Lemma silent_try_except {A} (body : M A) handler :
  silent body -> (forall e h, handler e = Some h -> silent h) ->
  silent (try_except body handler).
Proof.
  intros Hb Hh st r st'. unfold try_except.
  destruct (body st) as [[a|c|e] st1] eqn:E.
  - intros [= <- <-]. eapply Hb, E.
  - intros [= <- <-]. eapply Hb, E.
  - destruct (Hb _ _ _ E) as [E1 _]. destruct (handler e) as [h|] eqn:Eh.
    + intros H. destruct (Hh _ _ Eh _ _ _ H) as [E2 N2].
      split; [exact (effects_silent _ _ _ _ _ E1 E2) | exact N2].
    + intros [= <- <-]. split; [exact E1 | discriminate].
Qed.

Section SecretStage.

Context (cfg : Config) (w : World).

Lemma get_latest_secret_effects secret_name st r st' :
  get_latest_secret cfg w secret_name st = (r, st') -> effects st st' [] 0.
Proof.
  unfold get_latest_secret, try_except, bind, call, print, raise, ret.
  cbn. destruct (secret_manager w _) as [[m|m|m]|s]; cbn;
    intros [= <- <-]; unfold effects; cbn;
    rewrite app_nil_r, Nat.add_0_r; done.
Qed.

(** What [get_latest_secret] returns is decided by the secret store. *)
Lemma get_latest_secret_result secret_name st :
  fst (get_latest_secret cfg w secret_name st)
  = match secret_manager w (secret_path cfg secret_name) with
    | inr s => Normal (Some (Py.rstrip s))
    | inl (FailedPrecondition _) => Normal None
    | inl e => Raised e
    end.
Proof.
  unfold get_latest_secret, secret_path, try_except, bind, call, print, raise, ret.
  cbn. destruct (secret_manager w _) as [[m|m|m]|s]; reflexivity.
Qed.

Lemma get_latest_secret_readable secret_name st :
  secrets_readable w ->
  exists s st', get_latest_secret cfg w secret_name st = (Normal (Some s), st')
                /\ effects st st' [] 0.
Proof.
  intros Hs.
  destruct (get_latest_secret cfg w secret_name st) as [r st'] eqn:E.
  pose proof (get_latest_secret_result secret_name st) as Hr.
  rewrite E in Hr. cbn in Hr.
  destruct (Hs (secret_path cfg secret_name)) as [s Hsec].
  rewrite Hsec in Hr. subst r.
  eauto using get_latest_secret_effects.
Qed.

End SecretStage.

(** One step through a call of [get_latest_secret] whose secret is readable *)
Ltac step_secret Hs :=
  match goal with
  | |- context [get_latest_secret ?c ?w ?n ?st] =>
      let s := fresh "s" in
      let st1 := fresh "st" in
      let E := fresh "E" in
      let Heff := fresh "Heff" in
      destruct (get_latest_secret_readable c w n st Hs) as (s & st1 & E & Heff);
      rewrite E; cbv beta iota
  end.

Section Stages.

Context (cfg : Config) (w : World).

Lemma get_latest_secret_silent secret_name :
  silent (get_latest_secret cfg w secret_name).
Proof.
  intros st r st' H. split; [eapply get_latest_secret_effects, H|].
  pose proof (get_latest_secret_result cfg w secret_name st) as Hr.
  rewrite H in Hr. cbn in Hr. subst r.
  intros code. destruct (secret_manager w _) as [[]|]; discriminate.
Qed.

Lemma get_twitter_secrets_silent : silent (get_twitter_secrets cfg w).
Proof.
  unfold get_twitter_secrets.
  repeat (apply silent_bind; [apply get_latest_secret_silent | intros ?]).
  apply silent_ret.
Qed.

Lemma create_twitter_connection_silent :
  silent (create_twitter_connection cfg w).
Proof.
  unfold create_twitter_connection.
  apply silent_bind; [apply get_twitter_secrets_silent | intros creds].
  apply silent_try_except.
  - apply silent_bind; [apply silent_call | intros; apply silent_ret].
  - intros e h [= <-].
    apply silent_bind; [apply silent_print | intros; apply silent_ret].
Qed.

(** With readable secrets [create_twitter_connection] returns, and it
    returns a connection when the credentials are accepted. *)
Lemma create_twitter_connection_readable st :
  secrets_readable w ->
  exists tweet st',
    create_twitter_connection cfg w st = (Normal tweet, st')
    /\ effects st st' [] 0
    /\ ((forall creds, tweepy_auth w creds = inr tt) -> is_Some tweet).
Proof.
  intros Hs.
  destruct (create_twitter_connection cfg w st) as [r st'] eqn:E.
  pose proof (create_twitter_connection_silent _ _ _ E) as [Heff _].
  revert E. unfold create_twitter_connection, get_twitter_secrets, bind.
  repeat step_secret Hs.
  unfold try_except, call, ret, raise, print.
  destruct (tweepy_auth w _) as [e|[]] eqn:Ea; cbn; intros [= <- <-].
  - eexists _, _. split; [reflexivity|]. split; [exact Heff|].
    intros Hauth. rewrite Hauth in Ea. discriminate.
  - eexists _, _. split; [reflexivity|]. split; [exact Heff|]. eauto.
Qed.

(** *** The policy API *)

Lemma list_org_policies_run st :
  exists st', effects st st' [] 1
    /\ list_org_policies w st
       = (match org_policy_api w (api_calls st) with
          | inr response => Normal response
          | inl _ => SysExit 1
          end, st').
Proof.
  unfold list_org_policies, bind, next_query, try_except, call, raise, ret,
    print, sys_exit.
  cbn. destruct (org_policy_api w (api_calls st)) as [e|response]; cbn;
    eexists; (split; [|reflexivity]); unfold effects; cbn;
    rewrite app_nil_r, Nat.add_1_r; done.
Qed.

Lemma constraint_transform_run st :
  exists st', effects st st' [] 1
    /\ constraint_transform w st
       = (match listing w (api_calls st) with
          | Some names => Normal names
          | None => SysExit 1
          end, st').
Proof.
  destruct (list_org_policies_run st) as (st' & Heff & E).
  exists st'. split; [exact Heff|].
  unfold constraint_transform, bind, listing. rewrite E.
  destruct (org_policy_api w (api_calls st)); reflexivity.
Qed.

(** *** The baseline store *)

(** [upload_policy_file] saves the listing it has just asked for, and
    ends the run: with status 0 after the upload, with status 1 and no
    upload when the query fails. *)
Lemma upload_policy_file_run {A} st :
  exists st',
    api_calls st' = api_calls st + 1
    /\ match listing w (api_calls st) with
       | Some names =>
           @upload_policy_file cfg w A st = (SysExit 0, st')
           /\ trace st'
              = trace st ++ [EvUpload (POLICY_FILE cfg) (baseline_text names)]
           /\ bucket st'
              = <[POLICY_FILE cfg := baseline_text names]> (bucket st)
       | None =>
           @upload_policy_file cfg w A st = (SysExit 1, st')
           /\ trace st' = trace st /\ bucket st' = bucket st
       end.
Proof.
  destruct (constraint_transform_run st) as (st1 & (Hb & Ht & Hn) & E).
  unfold upload_policy_file, bind. rewrite E.
  destruct (listing w (api_calls st)) as [names|].
  - unfold upload_from_filename, write_file, read_file, bind, print, sys_exit.
    cbn. rewrite lookup_insert_eq. cbn.
    eexists. split; [|split; [reflexivity|]]; cbn.
    + exact Hn.
    + rewrite Ht, app_nil_r, Hb. done.
  - exists st1. rewrite app_nil_r in Ht. done.
Qed.

Lemma download_policy_file_run st text :
  bucket st !! POLICY_FILE cfg = Some text ->
  exists st', download_policy_file cfg st = (Normal (baseline_lines text), st')
              /\ effects st st' [] 0.
Proof.
  intros Hb.
  unfold download_policy_file, download_to_filename, write_file, read_file,
    bind, print, ret.
  rewrite Hb. cbn. rewrite lookup_insert_eq. cbn.
  eexists. split; [reflexivity|].
  unfold effects. cbn. rewrite app_nil_r, Nat.add_0_r. done.
Qed.

(** [fetch_old_policies] reads the blob when the bucket has it and saves
    a first baseline otherwise. *)
Lemma fetch_old_policies_found st text :
  bucket st !! POLICY_FILE cfg = Some text ->
  exists st', fetch_old_policies cfg w st = (Normal (baseline_lines text), st')
              /\ effects st st' [] 0.
Proof.
  intros Hb. unfold fetch_old_policies, bind, list_blobs.
  rewrite bool_decide_eq_true_2.
  - apply download_policy_file_run, Hb.
  - apply elem_of_elements, elem_of_dom. eauto.
Qed.

Lemma fetch_old_policies_missing st :
  bucket st !! POLICY_FILE cfg = None ->
  fetch_old_policies cfg w st = upload_policy_file cfg w st.
Proof.
  intros Hb. unfold fetch_old_policies, bind, list_blobs.
  rewrite bool_decide_eq_false_2; [reflexivity|].
  rewrite elem_of_elements, elem_of_dom, Hb. intros [? [=]].
Qed.

(** *** The pull request *)

(** Whatever GitHub answers, [create_pr] has only GitHub side effects,
    never ends the run with status 0, and returns only after the pull
    request is created, with the result of [update_file]. *)
Lemma create_pr_effects content st r st' :
  create_pr cfg w content st = (r, st') ->
  exists evs,
    effects st st' evs 0
    /\ Forall (fun ev => is_github ev = true) evs
    /\ (forall code, r = SysExit code -> code = 1)
    /\ forall commit, r = Normal commit ->
         (exists token, update_file (github w token) = Some commit)
         /\ exists evs0 title head base,
              evs = evs0 ++ [EvCreatePull title head base].
Proof.
  unfold create_pr. intros H.
  apply bind_inv in H as [(token & st1 & H1 & H2)|[(c & H1 & ->)|(e & H1 & ->)]].
  - apply get_latest_secret_effects in H1.
    revert H2. unfold bind, print, emit, sys_exit, ret.
    destruct (get_repo (github w token)); cbn;
      [destruct (get_branch (github w token)) as [sha|]; cbn;
       [destruct (create_git_ref (github w token)); cbn;
        [destruct (get_contents (github w token)) as [contents|]; cbn;
         [destruct (update_file (github w token)) as [res|] eqn:Eu; cbn;
          [destruct (create_pull (github w token)); cbn|]|]|]|]|];
      intros [= <- <-].
    all: eexists; split;
      [eapply effects_silent; [exact H1|]; unfold effects; cbn;
       rewrite <- ?app_assoc; cbn;
       repeat split; first [reflexivity | symmetry; apply app_nil_r
                           | symmetry; apply Nat.add_0_r]
      |].
    all: split; [repeat constructor|].
    all: split; [intros ? Hc; inversion Hc; reflexivity|].
    all: intros commit [=]; subst.
    split; [eauto|]. eexists [_; _], _, _, _. reflexivity.
  - destruct (get_latest_secret_silent _ _ _ _ H1) as [_ N]. destruct (N c eq_refl).
  - exists []. split; [eapply get_latest_secret_effects, H1|].
    split; [constructor|]. split; discriminate.
Qed.

(** When the secrets are readable and GitHub accepts the calls, the
    branch, the file update and the pull request follow one another. *)
Lemma create_pr_accepted content st :
  secrets_readable w -> github_accepts w ->
  exists token commit path sha st',
    create_pr cfg w content st = (Normal commit, st')
    /\ update_file (github w token) = Some commit
    /\ effects st st'
         [EvCreateBranch "refs/heads/new_policies" sha;
          EvUpdateFile path "New Policies Detected" content "new_policies";
          EvCreatePull ("New Policies Detected on " ++ today w)
            "new_policies" "main"] 0.
Proof.
  intros Hs Hg. unfold create_pr, bind. step_secret Hs.
  destruct (Hg (Some s)) as (Hr & [sha Hb] & Hc & [[path fsha] Hf] & [commit Hu] & Hp).
  rewrite Hr, Hb, Hc, Hf, Hu, Hp. cbn.
  eexists _, commit, path, sha, _. split; [reflexivity|]. split; [exact Hu|].
  eapply effects_silent; [exact Heff|]. unfold effects. cbn.
  rewrite <- !app_assoc, Nat.add_0_r. done.
Qed.

Lemma create_pr_file_content_effects st r st' :
  create_pr_file_content cfg w st = (r, st') ->
  exists evs,
    effects st st' evs 1
    /\ Forall (fun ev => is_github ev = true) evs
    /\ (forall code, r = SysExit code -> code = 1)
    /\ forall commit, r = Normal commit ->
         (exists token, update_file (github w token) = Some commit)
         /\ exists evs0 title head base,
              evs = evs0 ++ [EvCreatePull title head base].
Proof.
  unfold create_pr_file_content, bind.
  destruct (list_org_policies_run st) as (st1 & Heff & ->).
  destruct (org_policy_api w (api_calls st)) as [e|response].
  - intros [= <- <-]. exists []. split; [exact Heff|].
    split; [constructor|]. split; [intros ? [= <-]; reflexivity | discriminate].
  - intros H. apply create_pr_effects in H as (evs & He & Hrest).
    exists evs. split; [|exact Hrest].
    exact (effects_trans _ _ _ _ _ _ _ Heff He).
Qed.

(** *** The chat notifier *)

Lemma slack_one_run url policy st :
  exists st',
    effects st st' [EvSlackPost url (slack_text policy)] 0
    /\ slack_one w url policy st
       = (match slack_webhook w url (slack_text policy) with
          | inr _ => Normal tt
          | inl _ => SysExit 1
          end, st').
Proof.
  unfold slack_one, try_except, bind, emit, call, raise, ret, print, sys_exit.
  cbn. destruct (slack_webhook w url (slack_text policy)) as [e|status]; cbn;
    eexists; (split; [|reflexivity]); unfold effects; cbn;
    rewrite Nat.add_0_r; done.
Qed.

(** The loop of [post_to_slack] either posts every policy and returns,
    or stops with status 1 at the first POST that raises. *)
Lemma slack_loop_run url l st r st' :
  for_each l (slack_one w url) st = (r, st') ->
  (r = Normal tt
   /\ Forall (slack_answered w url) l
   /\ effects st st' (slack_events url l) 0)
  \/ (r = SysExit 1
      /\ exists l1 policy l2 e,
           l = l1 ++ policy :: l2
           /\ Forall (slack_answered w url) l1
           /\ slack_webhook w url (slack_text policy) = inl e
           /\ effects st st' (slack_events url (l1 ++ [policy])) 0).
Proof.
  revert st. induction l as [|policy l IH]; intros st; cbn.
  - intros [= <- <-]. left. split; [done|]. split; [constructor|].
    apply effects_refl.
  - unfold bind. destruct (slack_one_run url policy st) as (st1 & Heff & ->).
    destruct (slack_webhook w url (slack_text policy)) as [e|status] eqn:Ew.
    + intros [= <- <-]. right. split; [done|].
      exists [], policy, l, e.
      split; [done|]. split; [constructor|]. split; [done|exact Heff].
    + intros H. apply IH in H
        as [(-> & Hall & He)|(-> & l1 & p & l2 & e & -> & Hall & Hp & He)].
      * left. split; [done|]. split.
        -- constructor; [exists status; exact Ew | exact Hall].
        -- exact (effects_trans _ _ _ _ _ _ _ Heff He).
      * right. split; [done|].
        exists (policy :: l1), p, l2, e.
        split; [done|]. split; [|split; [exact Hp|]].
        -- constructor; [exists status; exact Ew | exact Hall].
        -- exact (effects_trans _ _ _ _ _ _ _ Heff He).
Qed.

Lemma slack_loop_answered url l st :
  Forall (slack_answered w url) l ->
  exists st', for_each l (slack_one w url) st = (Normal tt, st')
              /\ effects st st' (slack_events url l) 0.
Proof.
  intros Hall.
  destruct (for_each l (slack_one w url) st) as [r st'] eqn:E.
  apply slack_loop_run in E
    as [(-> & _ & He)|(-> & l1 & p & l2 & e & -> & _ & Hp & _)].
  - eauto.
  - apply Forall_app in Hall as [_ Hall].
    apply Forall_cons in Hall as [[status Hs] _]. congruence.
Qed.

Lemma slack_loop_raises url l1 policy l2 e st :
  Forall (slack_answered w url) l1 ->
  slack_webhook w url (slack_text policy) = inl e ->
  exists st', for_each (l1 ++ policy :: l2) (slack_one w url) st = (SysExit 1, st')
              /\ effects st st' (slack_events url (l1 ++ [policy])) 0.
Proof.
  intros Hall Hp. revert st. induction Hall as [|p l1 [status Hs] _ IH]; intros st; cbn.
  - unfold bind. destruct (slack_one_run url policy st) as (st1 & Heff & ->).
    rewrite Hp. eauto.
  - unfold bind. destruct (slack_one_run url p st) as (st1 & Heff & ->).
    rewrite Hs. destruct (IH st1) as (st' & -> & He).
    exists st'. split; [reflexivity|].
    exact (effects_trans _ _ _ _ _ _ _ Heff He).
Qed.

(** *** The social notifier *)

Lemma tweet_loop_run tweet commit l st r st' :
  for_each l (tweet_one w tweet commit) st = (r, st') ->
  exists l1,
    l1 `prefix_of` l
    /\ effects st st' (tweet_events commit l1) 0
    /\ (r = Normal tt /\ l1 = l \/ r = SysExit 1).
Proof.
  revert st. induction l as [|policy l IH]; intros st; cbn.
  - intros [= <- <-]. exists []. split; [done|].
    split; [apply effects_refl|]. left. done.
  - unfold bind, tweet_one at 1, try_except, update_status.
    destruct tweet as [api|]; cbn.
    + unfold bind, emit, call, raise, ret, print, sys_exit. cbn.
      destruct (twitter_update_status w api _) as [e|[]]; cbn.
      * intros [= <- <-]. exists [policy]. split; [by apply prefix_cons, prefix_nil|].
        split; [|right; done]. unfold effects. cbn. rewrite Nat.add_0_r. done.
      * intros H. apply IH in H as (l1 & Hpre & He & Hr).
        exists (policy :: l1). split; [by apply prefix_cons|]. split.
        -- eapply (effects_trans _ _ _ [_] _ 0 0); [|exact He].
           unfold effects. cbn. rewrite Nat.add_0_r. done.
        -- destruct Hr as [[-> ->] | ->]; [left|right]; done.
    + unfold raise, bind, print, sys_exit. cbn.
      intros [= <- <-]. exists []. split; [apply prefix_nil|].
      split; [|right; done]. unfold effects. cbn.
      rewrite app_nil_r, Nat.add_0_r. done.
Qed.

Lemma tweet_loop_accepted api commit l st :
  (forall content, twitter_update_status w api content = inr tt) ->
  exists st', for_each l (tweet_one w (Some api) commit) st = (Normal tt, st')
              /\ effects st st' (tweet_events commit l) 0.
Proof.
  intros Hok. revert st. induction l as [|policy l IH]; intros st; cbn.
  - eexists. split; [reflexivity|]. apply effects_refl.
  - unfold bind, tweet_one at 1, try_except, update_status. cbn.
    unfold bind, emit, call, ret. cbn. rewrite Hok. cbn.
    edestruct IH as (st' & -> & He). eexists. split; [reflexivity|].
    eapply (effects_trans _ _ _ [_] _ 0 0); [|exact He].
    unfold effects. cbn. rewrite Nat.add_0_r. done.
Qed.

Lemma post_to_slack_run l st r st' :
  post_to_slack cfg w l st = (r, st') ->
  exists url l1,
    l1 `prefix_of` l
    /\ effects st st' (slack_events url l1) 0
    /\ (forall code, r = SysExit code -> code = 1)
    /\ (r = Normal tt -> l1 = l).
Proof.
  unfold post_to_slack. intros H.
  apply bind_inv in H as [(url & st1 & H1 & H)|[(c & H1 & ->)|(e & H1 & ->)]].
  2: { destruct (get_latest_secret_silent _ _ _ _ H1) as [_ N].
       destruct (N c eq_refl). }
  2: { exists None, []. split; [apply prefix_nil|].
       split; [eapply get_latest_secret_effects, H1|]. split; discriminate. }
  apply get_latest_secret_effects in H1.
  apply bind_inv in H as [(tw & st2 & H2 & H)|[(c & H2 & ->)|(e & H2 & ->)]].
  2: { destruct (create_twitter_connection_silent _ _ _ H2) as [_ N].
       destruct (N c eq_refl). }
  2: { destruct (create_twitter_connection_silent _ _ _ H2) as [E2 _].
       exists None, []. split; [apply prefix_nil|].
       split; [exact (effects_silent _ _ _ _ _ H1 E2)|]. split; discriminate. }
  destruct (create_twitter_connection_silent _ _ _ H2) as [E2 _].
  pose proof (effects_silent _ _ _ _ _ H1 E2) as E12.
  apply slack_loop_run in H
    as [(-> & _ & He)|(-> & l1 & p & l2 & e & -> & _ & _ & He)].
  - exists url, l. split; [done|].
    split; [exact (effects_silent _ _ _ _ _ E12 He)|]. split; done.
  - exists url, (l1 ++ [p]). split.
    + rewrite (cons_middle p l1 l2), app_assoc. apply prefix_app_r. done.
    + split; [exact (effects_silent _ _ _ _ _ E12 He)|].
      split; [intros ? [= <-]; reflexivity | discriminate].
Qed.

(** With readable secrets [post_to_slack] reaches its loop. *)
Lemma post_to_slack_loop l st :
  secrets_readable w ->
  exists st1,
    effects st st1 [] 0
    /\ post_to_slack cfg w l st = for_each l (slack_one w (slack_url cfg w)) st1.
Proof.
  intros Hs. unfold post_to_slack, bind.
  destruct (get_latest_secret cfg w (S_SLACK_NAME cfg) st) as [r st0] eqn:E.
  pose proof (get_latest_secret_result cfg w (S_SLACK_NAME cfg) st) as Hr.
  rewrite E in Hr. cbn in Hr. apply get_latest_secret_effects in E.
  unfold slack_url.
  destruct (Hs (secret_path cfg (S_SLACK_NAME cfg))) as [secret Hsec].
  rewrite Hsec in Hr |- *. subst r.
  destruct (create_twitter_connection_readable st0 Hs) as (tw & st2 & -> & E2 & _).
  exists st2. split; [|reflexivity]. exact (effects_silent _ _ _ _ _ E E2).
Qed.

Lemma post_to_twitter_run l commit st r st' :
  post_to_twitter cfg w l commit st = (r, st') ->
  exists l1,
    l1 `prefix_of` l
    /\ effects st st' (tweet_events commit l1) 0
    /\ (forall code, r = SysExit code -> code = 1)
    /\ (r = Normal tt -> l1 = l).
Proof.
  unfold post_to_twitter. intros H.
  apply bind_inv in H as [(tw & st1 & H1 & H)|[(c & H1 & ->)|(e & H1 & ->)]].
  2: { destruct (create_twitter_connection_silent _ _ _ H1) as [_ N].
       destruct (N c eq_refl). }
  2: { destruct (create_twitter_connection_silent _ _ _ H1) as [E1 _].
       exists []. split; [apply prefix_nil|]. split; [exact E1|].
       split; discriminate. }
  destruct (create_twitter_connection_silent _ _ _ H1) as [E1 _].
  apply tweet_loop_run in H as (l1 & Hpre & He & Hr).
  exists l1. split; [exact Hpre|].
  split; [exact (effects_silent _ _ _ _ _ E1 He)|].
  destruct Hr as [[-> ->] | ->]; split; try done.
  intros ? [= <-]. reflexivity.
Qed.

(** With readable secrets [post_to_twitter] reaches its loop, with a
    connection when the credentials are accepted. *)
Lemma post_to_twitter_loop l commit st :
  secrets_readable w ->
  exists tweet st1,
    effects st st1 [] 0
    /\ post_to_twitter cfg w l commit st
       = for_each l (tweet_one w tweet commit) st1
    /\ ((forall creds, tweepy_auth w creds = inr tt) -> is_Some tweet).
Proof.
  intros Hs. unfold post_to_twitter, bind.
  destruct (create_twitter_connection_readable st Hs)
    as (tw & st1 & -> & E1 & Hsome).
  exists tw, st1. done.
Qed.

Lemma create_pr_file_content_accepted st :
  secrets_readable w -> github_accepts w ->
  is_Some (listing w (api_calls st)) ->
  exists token commit gh st',
    create_pr_file_content cfg w st = (Normal commit, st')
    /\ update_file (github w token) = Some commit
    /\ Forall (fun ev => is_github ev = true) gh
    /\ effects st st' gh 1.
Proof.
  intros Hs Hg [names Hl]. unfold create_pr_file_content, bind.
  destruct (list_org_policies_run st) as (st1 & E1 & ->).
  unfold listing in Hl.
  destruct (org_policy_api w (api_calls st)) as [e|response]; [discriminate|].
  destruct (create_pr_accepted (JsonDumps response) st1 Hs Hg)
    as (token & commit & path & sha & st' & -> & Hu & E2).
  eexists token, commit, _, st'. split; [reflexivity|]. split; [exact Hu|].
  split; [|exact (effects_trans _ _ _ _ _ _ _ E1 E2)].
  repeat constructor.
Qed.

(** *** The [else] branch as a whole *)

Lemma notify_and_save_run current old st r st' :
  notify_and_save cfg w current old st = (r, st') ->
  notified cfg w (new_policies_of current old)
    (trace st) (bucket st) (api_calls st) r st'.
Proof.
  unfold notify_and_save. set (new := new_policies_of current old).
  set (none := {| commit_url := "" |}).
  intros H.
  apply bind_inv in H as [([] & st0 & H0 & H)|[(c & [=] & _)|(e & [=] & _)]].
  assert (E0 : effects st st0 [] 0)
    by (injection H0 as <-; apply (print_effects _ st)).
  clear H0.
  apply bind_inv in H as [(commit & st1 & H1 & H)|[(c & H1 & ->)|(e & H1 & ->)]].
  2, 3: apply create_pr_file_content_effects in H1 as (gh & E1 & Hgh & Hc & _);
    destruct (effects_silent _ _ _ _ _ E0 E1) as (Hb & Ht & _);
    exists gh, None, none, [], [], [];
    (split; [rewrite Ht; cbn; rewrite ?app_nil_r; reflexivity|]);
    (split; [exact Hgh|]); (split; [apply prefix_nil|]);
    (split; [apply prefix_nil|]);
    (split; [intros [?|[?|?]]; done|]); (split; [intros [?|?]; done|]);
    (split; [done|]); right; cbn; eauto.
  apply create_pr_file_content_effects in H1 as (gh & E1 & Hgh & _ & Hpr).
  specialize (Hpr commit eq_refl).
  pose proof (effects_silent _ _ _ _ _ E0 E1) as E01. clear E0 E1.
  apply bind_inv in H as [([] & st2 & H2 & H)|[(c & H2 & ->)|(e & H2 & ->)]].
  2, 3: apply post_to_slack_run in H2 as (url & sl & Hsl & E2 & Hc & _);
    destruct (effects_trans _ _ _ _ _ _ _ E01 E2) as (Hb & Ht & _);
    exists gh, url, commit, sl, [], [];
    (split; [rewrite Ht; cbn; rewrite ?app_nil_r, <- ?app_assoc; reflexivity|]);
    (split; [exact Hgh|]); (split; [exact Hsl|]); (split; [apply prefix_nil|]);
    (split; [intros _; exact Hpr|]); (split; [intros [?|?]; done|]);
    (split; [done|]); right; cbn; eauto.
  apply post_to_slack_run in H2 as (url & sl & _ & E2 & _ & Hsl).
  specialize (Hsl eq_refl). subst sl.
  pose proof (effects_trans _ _ _ _ _ _ _ E01 E2) as E02. clear E01 E2.
  apply bind_inv in H as [([] & st3 & H3 & H)|[(c & H3 & ->)|(e & H3 & ->)]].
  2, 3: apply post_to_twitter_run in H3 as (tw & Htw & E3 & Hc & _);
    destruct (effects_trans _ _ _ _ _ _ _ E02 E3) as (Hb & Ht & _);
    exists gh, url, commit, new, tw, [];
    (split; [rewrite Ht; cbn; rewrite ?app_nil_r, <- ?app_assoc; reflexivity|]);
    (split; [exact Hgh|]); (split; [done|]); (split; [exact Htw|]);
    (split; [intros _; exact Hpr|]); (split; [done|]);
    (split; [done|]); right; cbn; eauto.
  apply post_to_twitter_run in H3 as (tw & _ & E3 & _ & Htw).
  specialize (Htw eq_refl). subst tw.
  destruct (effects_trans _ _ _ _ _ _ _ E02 E3) as (Hb & Ht & Hn). clear E02 E3.
  destruct (@upload_policy_file_run unit st3) as (st4 & _ & Hup).
  rewrite Hn, !Nat.add_0_r in Hup.
  destruct (listing w (api_calls st + 1)) as [names|] eqn:El.
  - destruct Hup as (Hu & Ht4 & Hb4). rewrite Hu in H. injection H as <- <-.
    exists gh, url, commit, new, new,
      [EvUpload (POLICY_FILE cfg) (baseline_text names)].
    split; [rewrite Ht4, Ht, <- ?app_assoc; reflexivity|].
    split; [exact Hgh|]. do 2 (split; [done|]).
    split; [intros _; exact Hpr|]. do 2 (split; [done|]).
    left. split; [done|]. exists names. rewrite Hb4, Hb. done.
  - destruct Hup as (Hu & Ht4 & Hb4). rewrite Hu in H. injection H as <- <-.
    exists gh, url, commit, new, new, [].
    split; [rewrite Ht4, Ht, ?app_nil_r, <- ?app_assoc; reflexivity|].
    split; [exact Hgh|]. do 2 (split; [done|]).
    split; [intros _; exact Hpr|]. do 2 (split; [done|]).
    right. rewrite Hb4, Hb. done.
Qed.

(** When no call fails the [else] branch runs to the upload: GitHub
    calls, one chat message and one social post for every new policy,
    then the baseline that the policy API lists at that moment. *)
Lemma notify_and_save_saved current old st saved :
  secrets_readable w -> github_accepts w ->
  is_Some (listing w (api_calls st)) ->
  listing w (api_calls st + 1) = Some saved ->
  Forall (slack_answered w (slack_url cfg w)) (new_policies_of current old) ->
  (new_policies_of current old <> [] -> twitter_accepts w) ->
  exists commit token gh st',
    notify_and_save cfg w current old st = (SysExit 0, st')
    /\ update_file (github w token) = Some commit
    /\ Forall (fun ev => is_github ev = true) gh
    /\ trace st'
       = trace st ++ gh
         ++ slack_events (slack_url cfg w) (new_policies_of current old)
         ++ tweet_events commit (new_policies_of current old)
         ++ [EvUpload (POLICY_FILE cfg) (baseline_text saved)]
    /\ bucket st' = <[POLICY_FILE cfg := baseline_text saved]> (bucket st).
Proof.
  intros Hs Hg Hl1 Hl2 Hslack Htw.
  unfold notify_and_save. set (new := new_policies_of current old) in *.
  unfold bind at 1. cbn [print].
  pose proof (print_effects "New Org Policies Detected!" st) as E0.
  cbn [print snd] in E0. set (st0 := Build_State _ _ _ _ _) in *.
  destruct (create_pr_file_content_accepted st0 Hs Hg)
    as (token & commit & gh & st1 & H1 & Hu & Hgh & E1).
  { destruct E0 as (_ & _ & ->). rewrite Nat.add_0_r. exact Hl1. }
  unfold bind at 1. rewrite H1.
  destruct (post_to_slack_loop new st1 Hs) as (st1' & E1' & H2).
  destruct (slack_loop_answered (slack_url cfg w) new st1' Hslack)
    as (st2 & H2' & E2).
  unfold bind at 1. rewrite H2, H2'.
  destruct (post_to_twitter_loop new commit st2 Hs) as (tw & st2' & E2' & H3 & Hsome).
  assert (exists st3, for_each new (tweet_one w tw commit) st2' = (Normal tt, st3)
                      /\ effects st2' st3 (tweet_events commit new) 0)
    as (st3 & H3' & E3).
  { destruct new as [|p new'] eqn:En.
    - eexists. split; [reflexivity|]. apply effects_refl.
    - rewrite <- En in *. destruct Htw as [Hauth Hup]; [by rewrite En|].
      destruct (Hsome Hauth) as [api ->].
      apply tweet_loop_accepted, Hup. }
  unfold bind at 1. rewrite H3, H3'.
  pose proof (effects_silent _ _ _ _ _ E0 E1) as E01.
  pose proof (effects_then_silent _ _ _ _ _ E01 E1') as E01'.
  pose proof (effects_trans _ _ _ _ _ _ _ E01' E2) as E02.
  pose proof (effects_then_silent _ _ _ _ _ E02 E2') as E02'.
  destruct (effects_trans _ _ _ _ _ _ _ E02' E3) as (Hb & Ht & Hn).
  destruct (@upload_policy_file_run unit st3) as (st4 & _ & Hup).
  rewrite Hn, !Nat.add_0_r, Hl2 in Hup. destruct Hup as (-> & Ht4 & Hb4).
  exists commit, token, gh, st4. split; [reflexivity|]. split; [exact Hu|].
  split; [exact Hgh|]. split.
  - rewrite Ht4, Ht, <- !app_assoc. reflexivity.
  - rewrite Hb4, Hb. reflexivity.
Qed.

(** When a POST to the chat webhook raises, the run stops there with
    status 1: no later chat message, no social post, no upload. *)
Lemma notify_and_save_slack_raises current old st l1 policy l2 e :
  secrets_readable w -> github_accepts w ->
  is_Some (listing w (api_calls st)) ->
  new_policies_of current old = l1 ++ policy :: l2 ->
  Forall (slack_answered w (slack_url cfg w)) l1 ->
  slack_webhook w (slack_url cfg w) (slack_text policy) = inl e ->
  exists gh st',
    notify_and_save cfg w current old st = (SysExit 1, st')
    /\ Forall (fun ev => is_github ev = true) gh
    /\ trace st'
       = trace st ++ gh ++ slack_events (slack_url cfg w) (l1 ++ [policy])
    /\ bucket st' = bucket st.
Proof.
  intros Hs Hg Hl1 Hnew Hall Hp.
  unfold notify_and_save. rewrite Hnew.
  unfold bind at 1. cbn [print].
  pose proof (print_effects "New Org Policies Detected!" st) as E0.
  cbn [print snd] in E0. set (st0 := Build_State _ _ _ _ _) in *.
  destruct (create_pr_file_content_accepted st0 Hs Hg)
    as (token & commit & gh & st1 & H1 & Hu & Hgh & E1).
  { destruct E0 as (_ & _ & ->). rewrite Nat.add_0_r. exact Hl1. }
  unfold bind at 1. rewrite H1.
  destruct (post_to_slack_loop (l1 ++ policy :: l2) st1 Hs) as (st1' & E1' & H2).
  destruct (slack_loop_raises (slack_url cfg w) l1 policy l2 e st1' Hall Hp)
    as (st2 & H2' & E2).
  unfold bind at 1. rewrite H2, H2'.
  pose proof (effects_silent _ _ _ _ _ E0 E1) as E01.
  pose proof (effects_then_silent _ _ _ _ _ E01 E1') as E01'.
  destruct (effects_trans _ _ _ _ _ _ _ E01' E2) as (Hb & Ht & Hn).
  exists gh, st2. split; [reflexivity|]. split; [exact Hgh|].
  split; [rewrite Ht; reflexivity | exact Hb].
Qed.

End Stages.

(** ** The three ways of a run *)

Section Runs.

Context (cfg : Config) (w : World) (b : gmap string string).

(** No baseline blob: the run saves the listing and stops. *)
Lemma run_missing :
  b !! POLICY_FILE cfg = None ->
  exists st',
    match listing w 0 with
    | Some names =>
        run cfg w b = (SysExit 0, st')
        /\ trace st' = [EvUpload (POLICY_FILE cfg) (baseline_text names)]
        /\ bucket st' = <[POLICY_FILE cfg := baseline_text names]> b
    | None =>
        run cfg w b = (SysExit 1, st') /\ trace st' = [] /\ bucket st' = b
    end.
Proof.
  intros Hb. unfold run, compare_policies, bind.
  rewrite (fetch_old_policies_missing cfg w (initial b) Hb).
  destruct (@upload_policy_file_run cfg w (list string) (initial b))
    as (st' & _ & H).
  exists st'. cbn in H. destruct (listing w 0).
  - destruct H as (-> & Ht & Hbk). done.
  - destruct H as (-> & Ht & Hbk). done.
Qed.

(** A baseline blob: the run stops when the listing cannot be had,
    returns when the sorted lists are equal, and goes through the
    [else] branch otherwise. *)
Lemma run_found text :
  b !! POLICY_FILE cfg = Some text ->
  match listing w 0 with
  | None =>
      exists st', run cfg w b = (SysExit 1, st')
                  /\ trace st' = [] /\ bucket st' = b
  | Some current =>
      if decide (Py.sort current = Py.sort (baseline_lines text))
      then exists st', run cfg w b = (Normal tt, st')
                       /\ trace st' = [] /\ bucket st' = b
      else exists st1,
             run cfg w b
             = notify_and_save cfg w (Py.sort current)
                 (Py.sort (baseline_lines text)) st1
             /\ trace st1 = [] /\ bucket st1 = b /\ api_calls st1 = 1
  end.
Proof.
  intros Hb. unfold run, compare_policies, bind.
  destruct (fetch_old_policies_found cfg w (initial b) text Hb)
    as (st0 & -> & Hb0 & Ht0 & Hn0).
  destruct (constraint_transform_run w st0) as (st1 & (Hb1 & Ht1 & Hn1) & ->).
  rewrite Hn0. cbn [initial api_calls Nat.add].
  cbn in Hb0, Ht0, Hn0. rewrite Ht0 in Ht1. rewrite Hn0 in Hn1.
  rewrite Hb0 in Hb1. cbn in Ht1, Hn1.
  destruct (listing w 0) as [current|]; [|eauto].
  case_decide as Hsort.
  - rewrite bool_decide_eq_true_2 by exact Hsort.
    eexists. split; [reflexivity|]. cbn. done.
  - rewrite bool_decide_eq_false_2 by exact Hsort.
    exists st1. done.
Qed.

End Runs.

(** ** What a trace shows *)

Lemma github_shows_nothing gh :
  Forall (fun ev => is_github ev = true) gh ->
  slack_posts gh = [] /\ tweets gh = [] /\ uploads gh = [].
Proof.
  induction 1 as [|ev gh Hev _ (IH1 & IH2 & IH3)]; [done|].
  unfold slack_posts, tweets, uploads in *. destruct ev; try discriminate; cbn;
    rewrite ?IH1, ?IH2, ?IH3; done.
Qed.

Lemma slack_events_show url l :
  slack_posts (slack_events url l) = map slack_text l
  /\ tweets (slack_events url l) = [] /\ uploads (slack_events url l) = [].
Proof.
  unfold slack_posts, tweets, uploads.
  induction l as [|p l (IH1 & IH2 & IH3)]; [done|].
  cbn. repeat split; [f_equal; exact IH1 | exact IH2 | exact IH3].
Qed.

Lemma tweet_events_show commit l :
  slack_posts (tweet_events commit l) = []
  /\ tweets (tweet_events commit l) = map (fun p => tweet_text p commit) l
  /\ uploads (tweet_events commit l) = [].
Proof.
  unfold slack_posts, tweets, uploads.
  induction l as [|p l (IH1 & IH2 & IH3)]; [done|].
  cbn. repeat split; [exact IH1 | f_equal; exact IH2 | exact IH3].
Qed.

Lemma trace_shows gh url commit sl tw up :
  Forall (fun ev => is_github ev = true) gh ->
  slack_posts (gh ++ slack_events url sl ++ tweet_events commit tw ++ up)
  = map slack_text sl ++ slack_posts up
  /\ tweets (gh ++ slack_events url sl ++ tweet_events commit tw ++ up)
     = map (fun p => tweet_text p commit) tw ++ tweets up
  /\ uploads (gh ++ slack_events url sl ++ tweet_events commit tw ++ up)
     = uploads up.
Proof.
  intros Hgh.
  destruct (github_shows_nothing gh Hgh) as (G1 & G2 & G3).
  destruct (slack_events_show url sl) as (S1 & S2 & S3).
  destruct (tweet_events_show commit tw) as (T1 & T2 & T3).
  unfold slack_posts, tweets, uploads in *.
  rewrite !omap_app, G1, G2, G3, S1, S2, S3, T1, T2, T3. done.
Qed.

Lemma before_first_other {A} (P : A -> Prop) (gh rest before after : list A) ev :
  Forall P gh -> ~ P ev -> gh ++ rest = before ++ ev :: after ->
  exists k, before = gh ++ k /\ rest = k ++ ev :: after.
Proof.
  intros Hgh Hev. revert before.
  induction Hgh as [|x gh Hx _ IH]; intros before E; cbn in *.
  - exists before. done.
  - destruct before as [|y before]; cbn in E.
    + injection E as -> _. contradiction.
    + injection E as -> E. destruct (IH _ E) as (k & -> & ->). exists k. done.
Qed.

Section Shape.

Context (cfg : Config) (w : World).

(** What can be read off the trace of the [else] branch of a run *)
Lemma notified_shows new b0 n r st' :
  notified cfg w new [] b0 n r st' ->
  pull_request_first (trace st')
  /\ exists commit sl tw,
       slack_posts (trace st') = map slack_text sl
       /\ tweets (trace st') = map (fun p => tweet_text p commit) tw
       /\ sl `prefix_of` new /\ tw `prefix_of` new
       /\ (tw <> [] -> exists token, update_file (github w token) = Some commit)
       /\ ((r = SysExit 0 /\ sl = new /\ tw = new
            /\ exists names,
                 listing w (n + 1) = Some names
                 /\ uploads (trace st')
                    = [(POLICY_FILE cfg, baseline_text names)]
                 /\ bucket st' = <[POLICY_FILE cfg := baseline_text names]> b0)
           \/ (failed r /\ uploads (trace st') = [] /\ bucket st' = b0)).
Proof.
  intros (gh & url & commit & sl & tw & up & Ht & Hgh & Hsl & Htw & Hpr
          & Hsl' & Htw' & Hend).
  cbn in Ht.
  destruct (github_shows_nothing gh Hgh) as (G1 & G2 & G3).
  destruct (slack_events_show url sl) as (S1 & S2 & S3).
  destruct (tweet_events_show commit tw) as (T1 & T2 & T3).
  assert (Hup : up = [] \/ exists content, up = [EvUpload (POLICY_FILE cfg) content]).
  { destruct Hend as [(_ & names & _ & -> & _)|(_ & -> & _)]; eauto. }
  split.
  - intros before ev after E Hev. rewrite Ht in E.
    assert (Hnot : ~ is_github ev = true)
      by (destruct ev; cbn in Hev |- *; congruence).
    destruct (before_first_other _ gh _ before after ev Hgh Hnot E)
      as (k & -> & Hrest).
    destruct Hpr as (_ & gh0 & title & head & base & ->).
    + destruct sl; [|left; done]. destruct tw; [|right; left; done].
      right. right. cbn in Hrest. intros ->.
      by destruct k.
    + exists (EvCreatePull title head base). split; [|done].
      rewrite !elem_of_app, list_elem_of_singleton. auto.
  - exists commit, sl, tw.
    assert (Hs : slack_posts (trace st') = map slack_text sl).
    { rewrite Ht. unfold slack_posts in *. rewrite !omap_app, G1, S1, T1.
      destruct Hup as [->|[c ->]]; cbn; rewrite app_nil_r; done. }
    assert (Hw : tweets (trace st') = map (fun p => tweet_text p commit) tw).
    { rewrite Ht. unfold tweets in *. rewrite !omap_app, G2, S2, T2.
      destruct Hup as [->|[c ->]]; cbn; rewrite app_nil_r; done. }
    assert (Hu : uploads (trace st') = uploads up).
    { rewrite Ht. unfold uploads in *. rewrite !omap_app, G3, S3, T3. done. }
    do 4 (split; [assumption|]). split.
    + intros Hne. apply Hpr. auto.
    + destruct Hend as [(-> & names & Hl & -> & Hb)|(Hf & -> & Hb)].
      * left. split; [done|].
        split; [apply Hsl'; right; done|]. split; [apply Htw'; done|].
        exists names. rewrite Hu. done.
      * right. rewrite Hu. done.
Qed.

End Shape.

(** ** The baseline file *)

Lemma app_String a (s t : string) :
  (String a s ++ t)%string = String a (s ++ t).
Proof. reflexivity. Qed.

Lemma app_empty (t : string) : (EmptyString ++ t)%string = t.
Proof. reflexivity. Qed.

Lemma has_char_app c s t : has_char c (s ++ t) = has_char c s || has_char c t.
Proof.
  induction s as [|a s IH]; [reflexivity|].
  rewrite app_String. cbn. rewrite IH, orb_assoc. reflexivity.
Qed.

Lemma universal_newlines_no_cr s :
  has_char Py.CR s = false -> Py.universal_newlines s = s.
Proof.
  induction s as [|a s IH]; cbn; [reflexivity|].
  intros H. apply orb_false_iff in H as [Ha Hs].
  rewrite Ha, (IH Hs). reflexivity.
Qed.

Lemma file_lines_app_lf x t :
  has_char Py.LF x = false ->
  Py.file_lines (x ++ String Py.LF t) = (x ++ newline)%string :: Py.file_lines t.
Proof.
  induction x as [|a x IH]; [reflexivity|].
  rewrite !app_String. cbn.
  intros H. apply orb_false_iff in H as [Ha Hx].
  rewrite Ha, (IH Hx). reflexivity.
Qed.

Lemma file_lines_single x :
  has_char Py.LF x = false -> x <> EmptyString -> Py.file_lines x = [x].
Proof.
  induction x as [|a x IH]; cbn; [done|].
  intros H _. apply orb_false_iff in H as [Ha Hx]. rewrite Ha.
  destruct x as [|a' x]; [reflexivity|].
  rewrite (IH Hx) by discriminate. reflexivity.
Qed.

Lemma rstrip_app_lf x : Py.rstrip (x ++ newline) = Py.rstrip x.
Proof.
  induction x as [|a x IH]; [reflexivity|].
  rewrite app_String. cbn. rewrite IH. reflexivity.
Qed.

Lemma line_safe_inv n :
  line_safe n = true ->
  n <> EmptyString /\ has_char Py.LF n = false /\ has_char Py.CR n = false
  /\ Py.rstrip n = n.
Proof.
  unfold line_safe. rewrite !andb_true_iff, !negb_true_iff.
  intros [[[H1 H2] H3] H4]. apply String.eqb_neq in H1. apply String.eqb_eq in H4.
  done.
Qed.

Lemma baseline_text_no_cr names :
  Forall (fun n => line_safe n = true) names ->
  has_char Py.CR (baseline_text names) = false.
Proof.
  unfold baseline_text.
  induction 1 as [|n names Hn Hnames IH]; [reflexivity|].
  apply line_safe_inv in Hn as (_ & _ & Hcr & _).
  destruct names as [|m names]; [exact Hcr|].
  change (Py.join newline (n :: m :: names))
    with (n ++ String Py.LF (Py.join newline (m :: names)))%string.
  rewrite has_char_app, Hcr. cbn. exact IH.
Qed.

(** What is read back from the text of safe names is the names. *)
Lemma baseline_lines_text names :
  Forall (fun n => line_safe n = true) names ->
  baseline_lines (baseline_text names) = names.
Proof.
  intros Hsafe. unfold baseline_lines, Py.read_text_lines.
  rewrite universal_newlines_no_cr by (apply baseline_text_no_cr, Hsafe).
  unfold baseline_text.
  induction Hsafe as [|n names Hn Hnames IH]; [reflexivity|].
  apply line_safe_inv in Hn as (Hne & Hlf & _ & Hstrip).
  destruct names as [|m names].
  - cbn. rewrite (file_lines_single n Hlf Hne). cbn. rewrite Hstrip. reflexivity.
  - change (Py.join newline (n :: m :: names))
      with (n ++ String Py.LF (Py.join newline (m :: names)))%string.
    rewrite (file_lines_app_lf _ _ Hlf). cbn [map].
    rewrite rstrip_app_lf, Hstrip, IH. reflexivity.
Qed.

(** The text written by [upload_policy_file] is the names in their order,
    with one line feed between two names and none at the end. *)
Lemma baseline_text_concat names :
  baseline_text names = String.concat (String "010" EmptyString) names.
Proof.
  unfold baseline_text.
  induction names as [|n names IH]; [reflexivity|].
  destruct names as [|m names]; [reflexivity|].
  change (Py.join newline (n :: m :: names))
    with (n ++ newline ++ Py.join newline (m :: names))%string.
  rewrite IH. reflexivity.
Qed.

(** * The claims *)

(** ** New policies *)

(** C1: when the sorted lists differ, the new policies computed by
    [compare_policies] are, as a set, exactly the names of the current
    listing that the baseline does not have, each once, and the result is
    the same for every order of the two input sequences. *)
Theorem new_policies_set_difference (old current old' current' : list string) :
  Py.sort current <> Py.sort old ->
  old' ≡ₚ old -> current' ≡ₚ current ->
  Py.set (new_policies_of (Py.sort current) (Py.sort old))
  = Py.set current ∖ Py.set old
  /\ NoDup (new_policies_of (Py.sort current) (Py.sort old))
  /\ Py.sort current' <> Py.sort old'
  /\ new_policies_of (Py.sort current') (Py.sort old')
     = new_policies_of (Py.sort current) (Py.sort old).
Proof.
  intros Hdiff Hold Hcur. split; [|split; [|split]].
  - unfold new_policies_of, Py.list_of_set.
    rewrite !set_sort. unfold Py.set at 1. apply list_to_set_elements_L.
  - apply NoDup_new_policies_of.
  - rewrite sort_eq_iff in Hdiff |- *. intros H. apply Hdiff.
    rewrite <- Hold, <- Hcur. exact H.
  - apply sort_eq_iff in Hold, Hcur. rewrite Hold, Hcur. reflexivity.
Qed.

Lemma new_policies_set_difference_witness :
  Py.set (new_policies_of (Py.sort ["A"; "B"; "C"]) (Py.sort ["A"; "B"]))
  = Py.set ["A"; "B"; "C"] ∖ Py.set ["A"; "B"]
  /\ new_policies_of (Py.sort ["C"; "A"; "B"]) (Py.sort ["B"; "A"]) = ["C"].
Proof.
  destruct (new_policies_set_difference ["A"; "B"] ["A"; "B"; "C"]
              ["B"; "A"] ["C"; "A"; "B"]) as (H1 & _ & _ & H4).
  - vm_compute. discriminate.
  - apply perm_swap.
  - apply (bool_decide_unpack _). vm_compute. exact I.
  - split; [exact H1|]. rewrite H4. vm_compute. reflexivity.
Defined.

(** ** The no-op run *)

(** C2, as the code has it: when the baseline and the current listing hold
    the same names the same number of times, in whatever order (so also
    when they are equal as sets and neither repeats a name), the run
    creates no pull request, posts nothing and leaves the bucket as it
    was. *)
Theorem same_names_no_effect cfg w b text current :
  b !! POLICY_FILE cfg = Some text ->
  listing w 0 = Some current ->
  current ≡ₚ baseline_lines text
  \/ (NoDup current /\ NoDup (baseline_lines text)
      /\ Py.set current = Py.set (baseline_lines text)) ->
  exists st', run cfg w b = (Normal tt, st')
              /\ trace st' = [] /\ bucket st' = b.
Proof.
  intros Hb Hl Hsame.
  assert (Hperm : current ≡ₚ baseline_lines text).
  { destruct Hsame as [H|(N1 & N2 & Hset)]; [exact H|].
    apply NoDup_Permutation; [exact N1 | exact N2 |].
    intros x. unfold Py.set in Hset.
    rewrite <- !(elem_of_list_to_set (C := gset string)), Hset. done. }
  pose proof (run_found cfg w b text Hb) as H. rewrite Hl in H.
  rewrite decide_True in H by (apply sort_eq_iff, Hperm). exact H.
Qed.

Lemma same_names_no_effect_witness :
  exists st',
    run sample_cfg (sample_world (fun _ => ["constraints/b"; "constraints/a"]))
      (sample_bucket (lines ["constraints/a"; "constraints/b"]))
    = (Normal tt, st')
    /\ trace st' = []
    /\ bucket st' = sample_bucket (lines ["constraints/a"; "constraints/b"]).
Proof.
  apply (same_names_no_effect sample_cfg _ _
           (lines ["constraints/a"; "constraints/b"])
           ["constraints/b"; "constraints/a"]).
  - reflexivity.
  - reflexivity.
  - left. apply perm_swap.
Defined.

(** C2 as stated fails: a baseline that repeats a name is equal to the
    listing as a set, yet the sorted lists differ, and the run opens a pull
    request and rewrites the baseline. *)
Lemma repeated_name_not_a_noop :
  let text := lines ["constraints/a"; "constraints/a"] in
  let current := ["constraints/a"] in
  let w := sample_world (fun _ => current) in
  let st' := snd (run sample_cfg w (sample_bucket text)) in
  sample_bucket text !! POLICY_FILE sample_cfg = Some text
  /\ listing w 0 = Some current
  /\ Py.set current = Py.set (baseline_lines text)
  /\ trace st'
     = [EvCreateBranch "refs/heads/new_policies" "sha0";
        EvUpdateFile "policies/org_policy.json" "New Policies Detected"
          (JsonDumps (response_of current)) "new_policies";
        EvCreatePull "New Policies Detected on 2020-07-01" "new_policies" "main";
        EvUpload "policies.txt" "constraints/a"].
Proof. vm_compute. repeat split; reflexivity. Qed.

(** ** The first run *)

(** C3: without a baseline blob, and with a listing from the policy API,
    the run uploads once, to the baseline blob, the names of that listing
    in their order, one line feed between two names; it does nothing
    else, and ends with status 0 right after the upload.  The names are
    what the loader reads back from the blob when each is such as a line
    can hold. *)
Theorem bootstrap_uploads_listing cfg w b names :
  b !! POLICY_FILE cfg = None ->
  listing w 0 = Some names ->
  exists st',
    run cfg w b = (SysExit 0, st')
    /\ exit_status (fst (run cfg w b)) = 0
    /\ trace st'
       = [EvUpload (POLICY_FILE cfg)
            (String.concat (String "010" EmptyString) names)]
    /\ bucket st'
       = <[POLICY_FILE cfg := String.concat (String "010" EmptyString) names]> b
    /\ (Forall (fun n => line_safe n = true) names ->
        baseline_lines (String.concat (String "010" EmptyString) names) = names).
Proof.
  intros Hb Hl. destruct (run_missing cfg w b Hb) as (st' & H).
  rewrite Hl in H. destruct H as (Hr & Ht & Hbk).
  rewrite baseline_text_concat in Ht, Hbk.
  exists st'. rewrite Hr. do 4 (split; [done|]).
  intros Hsafe. rewrite <- baseline_text_concat.
  apply baseline_lines_text, Hsafe.
Qed.

Lemma bootstrap_uploads_listing_witness :
  exists st',
    run sample_cfg (sample_world (fun _ => ["constraints/a"; "constraints/b"])) ∅
    = (SysExit 0, st')
    /\ trace st'
       = [EvUpload "policies.txt"
            ("constraints/a" ++ String "010" "constraints/b")%string]
    /\ bucket st' !! "policies.txt"
       = Some ("constraints/a" ++ String "010" "constraints/b")%string.
Proof.
  destruct (bootstrap_uploads_listing sample_cfg
              (sample_world (fun _ => ["constraints/a"; "constraints/b"])) ∅
              ["constraints/a"; "constraints/b"])
    as (st' & Hr & _ & Ht & Hb & _).
  - reflexivity.
  - reflexivity.
  - exists st'. split; [exact Hr|]. split; [exact Ht|].
    rewrite Hb. reflexivity.
Defined.

(** ** The saved baseline *)

(** C4, as the code has it: a run that found a difference and reached the
    save stores the names that the policy API lists in answer to a new
    query made by [upload_policy_file] itself, the third of the run; this
    is the listing that was compared when the third query is answered as
    the first was. *)
Theorem saved_baseline_is_listed_again cfg w b text current st' :
  b !! POLICY_FILE cfg = Some text ->
  listing w 0 = Some current ->
  Py.sort current <> Py.sort (baseline_lines text) ->
  run cfg w b = (SysExit 0, st') ->
  exists saved,
    listing w 2 = Some saved
    /\ uploads (trace st') = [(POLICY_FILE cfg, baseline_text saved)]
    /\ bucket st' = <[POLICY_FILE cfg := baseline_text saved]> b
    /\ (listing w 2 = listing w 0 -> saved = current)
    /\ baseline_text saved = String.concat (String "010" EmptyString) saved.
Proof.
  intros Hb Hl Hdiff Hrun.
  pose proof (run_found cfg w b text Hb) as H. rewrite Hl in H.
  rewrite decide_False in H by exact Hdiff.
  destruct H as (st1 & E & Ht1 & Hb1 & Hn1). rewrite Hrun in E. symmetry in E.
  apply notify_and_save_run in E. rewrite Ht1, Hb1, Hn1 in E.
  apply notified_shows in E as (_ & commit & sl & tw & _ & _ & _ & _ & _ & Hend).
  destruct Hend as [(_ & _ & _ & saved & Hs & Hu & Hbk)|(Hf & _)].
  - exists saved. cbn in Hs. split; [exact Hs|]. split; [exact Hu|].
    split; [exact Hbk|]. split; [|apply baseline_text_concat].
    intros Hsame. rewrite Hsame, Hl in Hs. congruence.
  - cbn in Hf. discriminate.
Qed.

Lemma saved_baseline_is_listed_again_witness :
  let listed := ["constraints/a"; "constraints/b"; "constraints/c"] in
  let w := sample_world (fun _ => listed) in
  let b := sample_bucket (lines ["constraints/a"; "constraints/b"]) in
  uploads (trace (snd (run sample_cfg w b)))
  = [("policies.txt",
      ("constraints/a" ++ String "010" ("constraints/b"
        ++ String "010" "constraints/c"))%string)].
Proof.
  intros listed w b.
  destruct (saved_baseline_is_listed_again sample_cfg w b
              (lines ["constraints/a"; "constraints/b"]) listed
              (snd (run sample_cfg w b)))
    as (saved & Hs & Hu & _ & _ & Htext).
  - reflexivity.
  - reflexivity.
  - vm_compute. discriminate.
  - vm_compute. reflexivity.
  - injection Hs as <-. rewrite Hu, Htext. reflexivity.
Defined.

(** C4 as stated fails: the listing compared has three names, the policy
    API lists a fourth one by the time of the save, and the baseline
    stored has four names; the fourth was never announced. *)
Lemma saved_baseline_differs_from_compared :
  let text := lines ["constraints/a"; "constraints/b"] in
  let w := sample_world growing_listing in
  let r := fst (run sample_cfg w (sample_bucket text)) in
  let st' := snd (run sample_cfg w (sample_bucket text)) in
  let current := ["constraints/a"; "constraints/b"; "constraints/c"] in
  let saved := ["constraints/a"; "constraints/b"; "constraints/c"; "constraints/d"] in
  listing w 0 = Some current
  /\ Py.sort current <> Py.sort (baseline_lines text)
  /\ r = SysExit 0
  /\ slack_posts (trace st') = ["New Organization Policy Detected: constraints/c"]
  /\ bucket st' !! POLICY_FILE sample_cfg = Some (baseline_text saved)
  /\ baseline_lines (baseline_text saved) = saved
  /\ "constraints/d" ∈ Py.set saved
  /\ "constraints/d" ∉ Py.set current.
Proof.
  cbv zeta. split; [reflexivity|]. split; [vm_compute; discriminate|].
  split; [vm_compute; reflexivity|]. split; [vm_compute; reflexivity|].
  split; [vm_compute; reflexivity|]. split; [vm_compute; reflexivity|].
  split; apply (bool_decide_unpack _); vm_compute; exact I.
Qed.

(** ** Saving and loading the baseline *)

(** C5, as the code has it: for names that are not empty, hold no line
    break and do not end in white space, [upload_policy_file] followed,
    with the bucket unchanged, by the load of [fetch_old_policies] gives
    back the saved names, and the set read from the file does not depend
    on the order of its lines. *)
Theorem baseline_round_trip cfg w st names :
  listing w (api_calls st) = Some names ->
  Forall (fun n => line_safe n = true) names ->
  exists st1,
    @upload_policy_file cfg w unit st = (SysExit 0, st1)
    /\ (forall w' st2, bucket st2 = bucket st1 ->
          exists st3, fetch_old_policies cfg w' st2 = (Normal names, st3))
    /\ (forall names', names' ≡ₚ names ->
          Py.set (baseline_lines (baseline_text names')) = Py.set names).
Proof.
  intros Hl Hsafe.
  destruct (@upload_policy_file_run cfg w unit st) as (st1 & _ & H).
  rewrite Hl in H. destruct H as (Hr & _ & Hb).
  exists st1. split; [exact Hr|]. split.
  - intros w' st2 Hb2.
    destruct (fetch_old_policies_found cfg w' st2 (baseline_text names))
      as (st3 & E & _).
    + rewrite Hb2, Hb. apply lookup_insert_eq.
    + exists st3. rewrite E, (baseline_lines_text names Hsafe). reflexivity.
  - intros names' Hperm.
    rewrite baseline_lines_text by (rewrite Hperm; exact Hsafe).
    unfold Py.set. apply list_to_set_perm_L, Hperm.
Qed.

Lemma baseline_round_trip_witness :
  let names := ["constraints/b"; "constraints/a"] in
  let w := sample_world (fun _ => names) in
  exists st1,
    @upload_policy_file sample_cfg w unit (initial ∅) = (SysExit 0, st1)
    /\ exists st3, fetch_old_policies sample_cfg w (initial (bucket st1))
                   = (Normal names, st3).
Proof.
  intros names w.
  destruct (baseline_round_trip sample_cfg w (initial ∅) names)
    as (st1 & Hr & Hload & _).
  - reflexivity.
  - repeat constructor.
  - exists st1. split; [exact Hr|]. apply Hload. reflexivity.
Defined.

(** C5 as stated fails for three kinds of names: a name that ends in a
    blank is read back without it, a name with a line feed inside is read
    back as two names, and an empty name at the end is not read back.  In
    the first case the run that follows the save announces the name as
    new. *)
Lemma round_trip_changes_names :
  Py.set (baseline_lines (baseline_text ["constraints/a "]))
    <> Py.set ["constraints/a "]
  /\ Py.set (baseline_lines (baseline_text [String "a" (String Py.LF "b")]))
       <> Py.set [String "a" (String Py.LF "b")]
  /\ Py.set (baseline_lines (baseline_text ["constraints/a"; ""]))
       <> Py.set ["constraints/a"; ""]
  /\ let w := sample_world (fun _ => ["constraints/a "]) in
     let saved := bucket (snd (run sample_cfg w ∅)) in
     slack_posts (trace (snd (run sample_cfg w saved)))
     = ["New Organization Policy Detected: constraints/a "].
Proof.
  split; [|split; [|split]].
  - intros H. apply (f_equal (fun s => bool_decide ("constraints/a " ∈ s))) in H.
    vm_compute in H. discriminate.
  - intros H.
    apply (f_equal (fun s => bool_decide (String "a" (String Py.LF "b") ∈ s))) in H.
    vm_compute in H. discriminate.
  - intros H. apply (f_equal (fun s => bool_decide ("" ∈ s))) in H.
    vm_compute in H. discriminate.
  - vm_compute. reflexivity.
Qed.

(** ** The order and the number of the notifications *)









(** ** A listing that lost names *)

(** C7: when the names listed are a strict subset of the baseline, the
    policy API answers every query of the run with that listing, the
    secrets are readable and GitHub accepts the pull request, the run
    sends no chat message and no social post, and overwrites the baseline
    blob with the current listing. *)
Theorem removal_only_rewrites_baseline cfg w b text current :
  b !! POLICY_FILE cfg = Some text ->
  (forall n, listing w n = Some current) ->
  Py.set current ⊂ Py.set (baseline_lines text) ->
  secrets_readable w -> github_accepts w ->
  exists st',
    run cfg w b = (SysExit 0, st')
    /\ slack_posts (trace st') = [] /\ tweets (trace st') = []
    /\ uploads (trace st') = [(POLICY_FILE cfg, baseline_text current)]
    /\ bucket st' !! POLICY_FILE cfg = Some (baseline_text current).
Proof.
  intros Hb Hl [Hsub Hstrict] Hs Hg.
  pose proof (run_found cfg w b text Hb) as H. rewrite Hl in H.
  rewrite decide_False in H.
  2: { intros Heq. apply sort_eq_iff in Heq. apply Hstrict.
       unfold Py.set. rewrite Heq. done. }
  destruct H as (st1 & E & Ht1 & Hb1 & Hn1).
  assert (Hnew : new_policies_of (Py.sort current) (Py.sort (baseline_lines text))
                 = []).
  { unfold new_policies_of, Py.list_of_set. rewrite !set_sort.
    rewrite (subseteq_empty_difference_L _ _ Hsub). apply elements_empty. }
  destruct (notify_and_save_saved cfg w (Py.sort current)
              (Py.sort (baseline_lines text)) st1 current Hs Hg)
    as (commit & token & gh & st' & Hrun & _ & Hgh & Ht & Hbk).
  - rewrite Hl. eauto.
  - apply Hl.
  - rewrite Hnew. constructor.
  - rewrite Hnew. done.
  - exists st'. rewrite E. split; [exact Hrun|].
    rewrite Hnew, Ht1 in Ht. cbn in Ht. rewrite Ht.
    destruct (github_shows_nothing gh Hgh) as (G1 & G2 & G3).
    unfold slack_posts, tweets, uploads in *.
    rewrite !omap_app, G1, G2, G3, Hbk, Hb1, lookup_insert_eq. done.
Qed.

Lemma removal_only_rewrites_baseline_witness :
  let w := sample_world (fun _ => ["A"]) in
  let b := sample_bucket (lines ["A"; "B"]) in
  exists st',
    run sample_cfg w b = (SysExit 0, st')
    /\ slack_posts (trace st') = [] /\ tweets (trace st') = []
    /\ bucket st' !! "policies.txt" = Some "A".
Proof.
  intros w b.
  destruct (removal_only_rewrites_baseline sample_cfg w b (lines ["A"; "B"]) ["A"])
    as (st' & Hr & Hs & Ht & _ & Hb).
  - reflexivity.
  - intros n. reflexivity.
  - apply (bool_decide_unpack _). vm_compute. exact I.
  - intros path. eexists. reflexivity.
  - intros token. cbn. repeat split; eauto.
  - exists st'. repeat split; assumption.
Defined.

(** ** The text of a social post *)

Lemma string_app_assoc (s t u : string) : ((s ++ t) ++ u)%string = (s ++ t ++ u)%string.
Proof.
  induction s as [|a s IH]; [reflexivity|].
  rewrite !app_String, IH. reflexivity.
Qed.

Lemma string_length_app (s t : string) :
  String.length (s ++ t) = String.length s + String.length t.
Proof.
  induction s as [|a s IH]; [reflexivity|].
  rewrite app_String. cbn. rewrite IH. reflexivity.
Qed.

Lemma split_go_nonempty sep k s : Py.split_go sep k s <> [].
Proof.
  revert k. induction s as [|c rest IH]; intros k; [done|].
  destruct k as [|k]; simpl; [|apply IH].
  destruct (Py.startswith sep (String c rest)); [done|].
  destruct (Py.split_go sep 0 rest); done.
Qed.

Lemma startswith_app sep s :
  Py.startswith sep s = true -> exists tail, s = (sep ++ tail)%string.
Proof.
  revert s. induction sep as [|a sep IH]; intros s; [by exists s|].
  destruct s as [|b s]; simpl; [done|].
  intros [Hab Hs]%andb_true_iff. apply Ascii.eqb_eq in Hab as ->.
  destruct (IH s Hs) as [tail ->]. by exists tail.
Qed.

Lemma drop_chars_app p t : drop_chars (String.length p) (p ++ t) = t.
Proof. induction p as [|a p IH]; [by destruct t|]. exact IH. Qed.

Lemma join_cons_char sep c p ps :
  Py.join sep (String c p :: ps) = String c (Py.join sep (p :: ps)).
Proof. destruct ps; reflexivity. Qed.

(** [sep.join(s.split(sep)) == s], with the characters still to pass *)
Lemma split_go_join sep k s :
  sep <> EmptyString -> k <= String.length s ->
  Py.join sep (Py.split_go sep k s) = drop_chars k s.
Proof.
  intros Hsep. revert k. induction s as [|c rest IH]; intros k Hk.
  - destruct k; [reflexivity|]. cbn in Hk. lia.
  - destruct k as [|k]; [|apply IH; cbn in Hk; lia].
    change (Py.split_go sep 0 (String c rest))
      with (if Py.startswith sep (String c rest)
            then EmptyString :: Py.split_go sep (String.length sep - 1) rest
            else match Py.split_go sep 0 rest with
                 | p :: ps => String c p :: ps
                 | [] => [String c EmptyString]
                 end).
    destruct (Py.startswith sep (String c rest)) eqn:Hstart.
    + apply startswith_app in Hstart as [tail Htail].
      destruct sep as [|a sep']; [done|].
      rewrite app_String in Htail. injection Htail as -> ->.
      pose proof (split_go_nonempty (String a sep')
                    (String.length (String a sep') - 1) (sep' ++ tail)) as Hne.
      specialize (IH (String.length (String a sep') - 1)).
      destruct (Py.split_go _ _ (sep' ++ tail)) as [|x xs]; [done|].
      change (Py.join (String a sep') (EmptyString :: x :: xs))
        with (String a sep' ++ Py.join (String a sep') (x :: xs))%string.
      rewrite IH.
      * cbn [String.length Nat.sub]. rewrite Nat.sub_0_r, drop_chars_app.
        reflexivity.
      * cbn [String.length Nat.sub]. rewrite Nat.sub_0_r, string_length_app. lia.
    + pose proof (split_go_nonempty sep 0 rest) as Hne.
      specialize (IH 0 (Nat.le_0_l _)).
      destruct (Py.split_go sep 0 rest) as [|p ps]; [done|].
      rewrite join_cons_char, IH. reflexivity.
Qed.

Lemma join_last sep x l :
  Py.join sep (x :: l) = Py.last_item (x :: l)
  \/ exists before,
       Py.join sep (x :: l) = (before ++ sep ++ Py.last_item (x :: l))%string.
Proof.
  revert x. induction l as [|y l IH]; intros x; [left; reflexivity|].
  right.
  change (Py.join sep (x :: y :: l)) with (x ++ sep ++ Py.join sep (y :: l))%string.
  change (Py.last_item (x :: y :: l)) with (Py.last_item (y :: l)).
  destruct (IH y) as [->|[before ->]].
  - by exists x.
  - exists (x ++ sep ++ before)%string. rewrite !string_app_assoc. reflexivity.
Qed.

(** The last piece of [s.split(sep)] is [s] itself or what follows an
    occurrence of [sep]. *)
Lemma last_piece sep s :
  sep <> EmptyString ->
  Py.last_item (Py.split sep s) = s
  \/ exists before, s = (before ++ sep ++ Py.last_item (Py.split sep s))%string.
Proof.
  intros Hsep. unfold Py.split.
  pose proof (split_go_join sep 0 s Hsep (Nat.le_0_l _)) as Hjoin.
  pose proof (split_go_nonempty sep 0 s) as Hne.
  destruct (Py.split_go sep 0 s) as [|x l]; [done|].
  assert (Hs : drop_chars 0 s = s) by (by destruct s). rewrite Hs in Hjoin.
  destruct (join_last sep x l) as [H|[before H]].
  - left. rewrite <- H. exact Hjoin.
  - right. exists before. rewrite <- H. symmetry. exact Hjoin.
Qed.

Lemma after_last_none c s : has_char c s = false -> after_last c s = s.
Proof.
  destruct s as [|a s]; [reflexivity|]. cbn.
  intros [Ha Hs]%orb_false_iff. rewrite Hs, Ha. reflexivity.
Qed.

Lemma after_last_suffix c s : exists before, s = (before ++ after_last c s)%string.
Proof.
  induction s as [|a s [before IH]]; [by exists EmptyString|]. cbn.
  destruct (has_char c s).
  - exists (String a before). rewrite app_String, <- IH. reflexivity.
  - destruct (Ascii.eqb a c).
    + by exists (String a EmptyString).
    + by exists EmptyString.
Qed.

Lemma after_last_app c before s :
  after_last c (before ++ String c s) = after_last c s.
Proof.
  induction before as [|a before IH].
  - rewrite app_empty. cbn. rewrite Ascii.eqb_refl.
    destruct (has_char c s) eqn:Hs; [reflexivity|].
    rewrite (after_last_none c s Hs). reflexivity.
  - rewrite app_String. cbn.
    rewrite has_char_app. cbn. rewrite Ascii.eqb_refl, orb_true_r. exact IH.
Qed.

(** The post is made of the text after the last slash of the name, a
    blank and the URL of the commit, after some more text. *)
Lemma tweet_text_shape policy commit :
  exists before,
    tweet_text policy commit
    = (before ++ after_last "/" policy ++ " " ++ commit_url commit)%string.
Proof.
  unfold tweet_text.
  set (piece := Py.last_item (Py.split "constraints/" policy)).
  assert (exists q, piece = (q ++ after_last "/" policy)%string) as [q Hq].
  { destruct (last_piece "constraints/" policy) as [H|[before H]]; [done| |].
    - fold piece in H. rewrite H. apply after_last_suffix.
    - fold piece in H. clearbody piece.
      destruct (after_last_suffix "/" piece) as [q Hq]. exists q.
      rewrite H.
      change ("constraints/" ++ piece)%string
        with ("constraints" ++ String "/" piece)%string.
      rewrite <- string_app_assoc, after_last_app. exact Hq. }
  exists ("New Organization Policy Detected: " ++ q)%string.
  rewrite Hq, !string_app_assoc. reflexivity.
Qed.

(** C8: the social posts of a run are the texts made, for new policies in
    their order, from the result of the file update of the pull request;
    a run that ends with status 0 has one for every new policy; and each
    such text ends with the part of the name after its last slash, a
    blank and the URL of the commit. *)
Theorem social_post_has_suffix_and_commit_url cfg w b text current :
  b !! POLICY_FILE cfg = Some text ->
  listing w 0 = Some current ->
  exists commit tw,
    tweets (trace (snd (run cfg w b))) = map (fun p => tweet_text p commit) tw
    /\ tw `prefix_of` new_policies_of (Py.sort current)
                        (Py.sort (baseline_lines text))
    /\ (fst (run cfg w b) = SysExit 0 ->
        tw = new_policies_of (Py.sort current) (Py.sort (baseline_lines text)))
    /\ (tw <> [] -> exists token, update_file (github w token) = Some commit)
    /\ forall policy, exists before,
         tweet_text policy commit
         = (before ++ after_last "/" policy ++ " " ++ commit_url commit)%string.
Proof.
  intros Hb Hl.
  pose proof (run_found cfg w b text Hb) as H. rewrite Hl in H.
  case_decide as Hsort.
  - destruct H as (st' & -> & Ht & _). cbn. rewrite Ht.
    exists {| commit_url := "" |}, []. split; [reflexivity|].
    split; [apply prefix_nil|]. split; [discriminate|]. split; [done|].
    intros policy. apply tweet_text_shape.
  - destruct H as (st1 & E & Ht1 & Hb1 & Hn1).
    destruct (run cfg w b) as [r st'] eqn:Hrun. symmetry in E.
    apply notify_and_save_run in E. rewrite Ht1, Hb1, Hn1 in E.
    apply notified_shows in E
      as (_ & commit & sl & tw & _ & Hw & _ & Htw & Hcommit & Hend).
    exists commit, tw. cbn. split; [exact Hw|]. split; [exact Htw|].
    split; [|split; [exact Hcommit|]].
    + intros ->. destruct Hend as [(_ & _ & -> & _)|(Hf & _)]; [done|].
      cbn in Hf. discriminate.
    + intros policy. apply tweet_text_shape.
Qed.

Lemma social_post_has_suffix_and_commit_url_witness :
  let w := sample_world (fun _ => ["constraints/a"; "constraints/b"]) in
  let b := sample_bucket (lines ["constraints/a"]) in
  exists commit tw,
    tweets (trace (snd (run sample_cfg w b)))
    = map (fun p => tweet_text p commit) tw
    /\ tw = ["constraints/b"]
    /\ exists before,
         tweet_text "constraints/b" commit
         = (before ++ "b" ++ " " ++ commit_url commit)%string.
Proof.
  intros w b.
  destruct (social_post_has_suffix_and_commit_url sample_cfg w b
              (lines ["constraints/a"]) ["constraints/a"; "constraints/b"])
    as (commit & tw & Ht & _ & Hall & _ & Hshape).
  - reflexivity.
  - reflexivity.
  - exists commit, tw. split; [exact Ht|]. split.
    + rewrite Hall; vm_compute; reflexivity.
    + apply (Hshape "constraints/b").
Defined.

(** ** Errors of the secret store *)

Section SecretErrors.

Context (cfg : Config) (w : World).

Lemma get_latest_secret_raises secret_name e st :
  secret_manager w (secret_path cfg secret_name) = inl e ->
  (forall msg, e <> FailedPrecondition msg) ->
  exists st', get_latest_secret cfg w secret_name st = (Raised e, st')
              /\ effects st st' [] 0.
Proof.
  intros He Hne.
  destruct (get_latest_secret cfg w secret_name st) as [r st'] eqn:E.
  pose proof (get_latest_secret_result cfg w secret_name st) as Hr.
  rewrite E, He in Hr. cbn in Hr. apply get_latest_secret_effects in E.
  exists st'. split; [|exact E]. subst r.
  destruct e; [destruct (Hne msg eq_refl)|reflexivity..].
Qed.

(** A secret read by [get_latest_secret] gives a value, [None], or an
    exception that is not a failed precondition. *)
Lemma get_latest_secret_cases secret_name st :
  exists r st', get_latest_secret cfg w secret_name st = (r, st')
    /\ ((exists v, r = Normal v)
        \/ exists e, r = Raised e /\ forall msg, e <> FailedPrecondition msg).
Proof.
  destruct (get_latest_secret cfg w secret_name st) as [r st'] eqn:E.
  pose proof (get_latest_secret_result cfg w secret_name st) as Hr.
  rewrite E in Hr. cbn in Hr. exists r, st'. split; [reflexivity|]. subst r.
  destruct (secret_manager w _) as [[m|m|m]|s]; eauto; right; eauto.
Qed.

Lemma bind_raised {A B} (m : M A) (k : A -> M B) st e st' :
  m st = (Raised e, st') -> bind m k st = (Raised e, st').
Proof. unfold bind. intros ->. reflexivity. Qed.

(** Once one of the four secrets raises, [get_twitter_secrets] raises: that
    exception, or the one of an earlier secret. *)
Lemma get_twitter_secrets_raises secret_name e st :
  secret_manager w (secret_path cfg secret_name) = inl e ->
  (forall msg, e <> FailedPrecondition msg) ->
  secret_name ∈ [CONSUMER_KEY_NAME cfg; CONSUMER_KEY_SECRET_NAME cfg;
                 ACCESS_TOKEN_NAME cfg; ACCESS_TOKEN_SECRET_NAME cfg] ->
  exists e' st', get_twitter_secrets cfg w st = (Raised e', st')
                 /\ forall msg, e' <> FailedPrecondition msg.
Proof.
  intros He Hne Hin. unfold get_twitter_secrets, bind.
  repeat
    (match goal with
     | |- context [get_latest_secret cfg w ?n ?s] =>
         destruct (decide (secret_name = n)) as [->|];
         [destruct (get_latest_secret_raises n e s He Hne) as (? & -> & _); eauto|];
         destruct (get_latest_secret_cases n s)
           as (? & ? & -> & [[? ->]|(? & -> & ?)]); [|eauto]
     end).
  exfalso.
  repeat (apply elem_of_cons in Hin as [?|Hin]; [contradiction|]).
  by apply elem_of_nil in Hin.
Qed.

End SecretErrors.

(** C9: when the secret store raises a failed precondition,
    [get_latest_secret] prints the error and returns [None], and the
    function that asked goes on; when it raises anything else, the
    exception leaves [get_latest_secret] and each function that reads a
    secret ([create_pr], [post_to_slack], [create_twitter_connection] and
    so [post_to_twitter]), and a run that reads the token for the pull
    request ends there with an uncaught exception, exit status 1 and no
    side effect. *)
Theorem secret_store_errors cfg w secret_name e st :
  secret_manager w (secret_path cfg secret_name) = inl e ->
  match e with
  | FailedPrecondition msg =>
      exists st',
        get_latest_secret cfg w secret_name st = (Normal None, st')
        /\ stdout st'
           = stdout st ++ [("Getting " ++ secret_name ++ " secret.")%string; msg]
        /\ effects st st' [] 0
  | _ =>
      (exists st', get_latest_secret cfg w secret_name st = (Raised e, st')
                   /\ effects st st' [] 0)
      /\ (secret_name = S_TOKEN_NAME cfg ->
          forall content, fst (create_pr cfg w content st) = Raised e)
      /\ (secret_name = S_SLACK_NAME cfg ->
          forall l, fst (post_to_slack cfg w l st) = Raised e)
      /\ (secret_name ∈ [CONSUMER_KEY_NAME cfg; CONSUMER_KEY_SECRET_NAME cfg;
                         ACCESS_TOKEN_NAME cfg; ACCESS_TOKEN_SECRET_NAME cfg] ->
          exists e',
            fst (create_twitter_connection cfg w st) = Raised e'
            /\ forall l commit, fst (post_to_twitter cfg w l commit st) = Raised e')
      /\ (secret_name = S_TOKEN_NAME cfg ->
          forall b text current,
            b !! POLICY_FILE cfg = Some text ->
            listing w 0 = Some current ->
            Py.sort current <> Py.sort (baseline_lines text) ->
            is_Some (listing w 1) ->
            exists st',
              run cfg w b = (Raised e, st')
              /\ exit_status (fst (run cfg w b)) = 1
              /\ trace st' = [] /\ bucket st' = b)
  end.
Proof.
  intros He.
  assert (Hother : (forall msg, e <> FailedPrecondition msg) ->
    (exists st', get_latest_secret cfg w secret_name st = (Raised e, st')
                 /\ effects st st' [] 0)
    /\ (secret_name = S_TOKEN_NAME cfg ->
        forall content, fst (create_pr cfg w content st) = Raised e)
    /\ (secret_name = S_SLACK_NAME cfg ->
        forall l, fst (post_to_slack cfg w l st) = Raised e)
    /\ (secret_name ∈ [CONSUMER_KEY_NAME cfg; CONSUMER_KEY_SECRET_NAME cfg;
                       ACCESS_TOKEN_NAME cfg; ACCESS_TOKEN_SECRET_NAME cfg] ->
        exists e',
          fst (create_twitter_connection cfg w st) = Raised e'
          /\ forall l commit, fst (post_to_twitter cfg w l commit st) = Raised e')
    /\ (secret_name = S_TOKEN_NAME cfg ->
        forall b text current,
          b !! POLICY_FILE cfg = Some text ->
          listing w 0 = Some current ->
          Py.sort current <> Py.sort (baseline_lines text) ->
          is_Some (listing w 1) ->
          exists st',
            run cfg w b = (Raised e, st')
            /\ exit_status (fst (run cfg w b)) = 1
            /\ trace st' = [] /\ bucket st' = b)).
  { intros Hne. split; [apply get_latest_secret_raises; assumption|].
    split; [|split; [|split]].
    - intros -> content. unfold create_pr.
      destruct (get_latest_secret_raises cfg w _ e st He Hne) as (st' & E & _).
      rewrite (bind_raised _ _ _ _ _ E). reflexivity.
    - intros -> l. unfold post_to_slack.
      destruct (get_latest_secret_raises cfg w _ e st He Hne) as (st' & E & _).
      rewrite (bind_raised _ _ _ _ _ E). reflexivity.
    - intros Hin.
      destruct (get_twitter_secrets_raises cfg w _ e st He Hne Hin)
        as (e' & st' & E & _).
      exists e'. unfold post_to_twitter, create_twitter_connection.
      rewrite !(bind_raised _ _ _ _ _ E).
      split; [reflexivity|]. intros l commit.
      rewrite (bind_raised _ _ _ e' st'); [reflexivity|].
      apply bind_raised, E.
    - intros -> b text current Hb Hl Hsort [names Hl1].
      pose proof (run_found cfg w b text Hb) as H. rewrite Hl in H.
      rewrite decide_False in H by exact Hsort.
      destruct H as (st1 & Hrun & Ht1 & Hb1 & Hn1).
      cut (exists st', notify_and_save cfg w (Py.sort current)
                         (Py.sort (baseline_lines text)) st1 = (Raised e, st')
                       /\ trace st' = [] /\ bucket st' = b).
      { intros (st' & E' & Ht' & Hb'). exists st'. rewrite Hrun, E'. done. }
      unfold notify_and_save, bind at 1. cbn [print].
      unfold create_pr_file_content, bind at 1. unfold bind at 1.
      match goal with
      | |- context [list_org_policies w ?s] =>
          destruct (list_org_policies_run w s) as (st2 & (Hb2 & Ht2 & _) & ->)
      end.
      cbn [api_calls] in *. rewrite Hn1. unfold listing in Hl1.
      destruct (org_policy_api w 1) as [|response]; [discriminate|].
      unfold create_pr.
      destruct (get_latest_secret_raises cfg w _ e st2 He Hne)
        as (st3 & E & (Hb3 & Ht3 & _)).
      rewrite (bind_raised _ _ _ _ _ E).
      exists st3. cbn in Hb2, Ht2.
      rewrite Ht3, Ht2, Ht1, Hb3, Hb2, Hb1. done. }
  destruct e as [msg|msg|msg]; [|apply Hother; discriminate..].
  unfold get_latest_secret, try_except, bind, call, print, raise, ret.
  fold (secret_path cfg secret_name). rewrite He. cbn.
  eexists. split; [reflexivity|]. cbn. split.
  - rewrite <- app_assoc. reflexivity.
  - unfold effects. cbn. rewrite app_nil_r, Nat.add_0_r. done.
Qed.

Lemma secret_store_errors_witness :
  let listed := ["constraints/a"; "constraints/b"] in
  let closed := with_secrets (sample_world (fun _ => listed))
                  (fun _ => inl (FailedPrecondition "secret is disabled")) in
  let denied := with_secrets (sample_world (fun _ => listed))
                  (fun _ => inl (OtherException "permission denied")) in
  (exists st', get_latest_secret sample_cfg closed "slack" (initial ∅)
               = (Normal None, st')
               /\ stdout st' = ["Getting slack secret."; "secret is disabled"])
  /\ exists st', run sample_cfg denied (sample_bucket (lines ["constraints/a"]))
                 = (Raised (OtherException "permission denied"), st')
                 /\ trace st' = [].
Proof.
  intros listed closed denied. split.
  - destruct (secret_store_errors sample_cfg closed "slack"
                (FailedPrecondition "secret is disabled") (initial ∅) eq_refl)
      as (st' & Hr & Hout & _).
    exists st'. split; [exact Hr | exact Hout].
  - destruct (secret_store_errors sample_cfg denied "token"
                (OtherException "permission denied") (initial ∅) eq_refl)
      as (_ & _ & _ & _ & Hrun).
    destruct (Hrun eq_refl (sample_bucket (lines ["constraints/a"]))
                (lines ["constraints/a"]) listed)
      as (st' & Hr & _ & Ht & _).
    + reflexivity.
    + reflexivity.
    + vm_compute. discriminate.
    + eexists. reflexivity.
    + exists st'. split; [exact Hr | exact Ht].
Defined.

(** ** The status code of the chat webhook *)

(** C10: in a run that found a difference, with readable secrets and with
    GitHub, the social network and the policy API answering, the chat
    notifier sends one POST for every new policy and the run goes on to
    the social posts and to the save, with status 0, whatever status codes
    the webhook answers with; the run stops, with status 1, only at a POST
    that raises: the policies before it and that one have been posted,
    nothing is posted to the social network and nothing is saved. *)
Theorem slack_status_code_is_ignored cfg w b text current :
  b !! POLICY_FILE cfg = Some text ->
  listing w 0 = Some current ->
  Py.sort current <> Py.sort (baseline_lines text) ->
  is_Some (listing w 1) -> is_Some (listing w 2) ->
  secrets_readable w -> github_accepts w -> twitter_accepts w ->
  (Forall (slack_answered w (slack_url cfg w))
     (new_policies_of (Py.sort current) (Py.sort (baseline_lines text))) ->
   exists st' commit saved,
     run cfg w b = (SysExit 0, st')
     /\ slack_posts (trace st')
        = map slack_text (new_policies_of (Py.sort current)
                            (Py.sort (baseline_lines text)))
     /\ tweets (trace st')
        = map (fun p => tweet_text p commit)
            (new_policies_of (Py.sort current) (Py.sort (baseline_lines text)))
     /\ uploads (trace st') = [(POLICY_FILE cfg, baseline_text saved)])
  /\ (forall l1 policy l2 e,
        new_policies_of (Py.sort current) (Py.sort (baseline_lines text))
        = l1 ++ policy :: l2 ->
        Forall (slack_answered w (slack_url cfg w)) l1 ->
        slack_webhook w (slack_url cfg w) (slack_text policy) = inl e ->
        exists st',
          run cfg w b = (SysExit 1, st')
          /\ slack_posts (trace st') = map slack_text (l1 ++ [policy])
          /\ tweets (trace st') = []
          /\ uploads (trace st') = []
          /\ bucket st' = b).
Proof.
  intros Hb Hl Hsort Hl1 [saved Hl2] Hs Hg Htw.
  pose proof (run_found cfg w b text Hb) as H. rewrite Hl in H.
  rewrite decide_False in H by exact Hsort.
  destruct H as (st1 & Hrun & Ht1 & Hb1 & Hn1). split.
  - intros Hall.
    destruct (notify_and_save_saved cfg w (Py.sort current)
                (Py.sort (baseline_lines text)) st1 saved Hs Hg)
      as (commit & token & gh & st' & E & _ & Hgh & Ht & _).
    + rewrite Hn1. exact Hl1.
    + rewrite Hn1. exact Hl2.
    + exact Hall.
    + intros _. exact Htw.
    + exists st', commit, saved. rewrite Hrun. split; [exact E|].
      rewrite Ht, Ht1. cbn [app].
      destruct (trace_shows gh (slack_url cfg w) commit
                  (new_policies_of (Py.sort current) (Py.sort (baseline_lines text)))
                  (new_policies_of (Py.sort current) (Py.sort (baseline_lines text)))
                  [EvUpload (POLICY_FILE cfg) (baseline_text saved)] Hgh)
        as (-> & -> & ->).
      cbn. rewrite !app_nil_r. done.
  - intros l1 policy l2 e Hnew Hall He.
    destruct (notify_and_save_slack_raises cfg w (Py.sort current)
                (Py.sort (baseline_lines text)) st1 l1 policy l2 e Hs Hg)
      as (gh & st' & E & Hgh & Ht & Hbk); try assumption.
    + rewrite Hn1. exact Hl1.
    + exists st'. rewrite Hrun. split; [exact E|].
      rewrite Ht, Ht1, Hbk, Hb1. cbn [app].
      destruct (trace_shows gh (slack_url cfg w) {| commit_url := "" |}
                  (l1 ++ [policy]) [] [] Hgh) as (H1 & H2 & H3).
      cbn [tweet_events map app] in H1, H2, H3.
      rewrite !app_nil_r in H1, H2, H3. rewrite H1, H2, H3.
      cbn. rewrite app_nil_r. done.
Qed.

Lemma slack_status_code_is_ignored_witness :
  let listed := ["constraints/a"; "constraints/b"] in
  let w := with_slack (sample_world (fun _ => listed)) (fun _ _ => inr 500) in
  let b := sample_bucket (lines ["constraints/a"]) in
  exists st',
    run sample_cfg w b = (SysExit 0, st')
    /\ slack_posts (trace st')
       = ["New Organization Policy Detected: constraints/b"]
    /\ uploads (trace st') = [("policies.txt", lines listed)].
Proof.
  intros listed w b.
  destruct (slack_status_code_is_ignored sample_cfg w b
              (lines ["constraints/a"]) listed) as [Hok _].
  - reflexivity.
  - reflexivity.
  - vm_compute. discriminate.
  - eexists. reflexivity.
  - eexists. reflexivity.
  - intros path. eexists. reflexivity.
  - intros token. cbn. repeat split; eauto.
  - split; intros; reflexivity.
  - destruct Hok as (st' & commit & saved & Hr & Hs & _ & Hu).
    + apply Forall_forall. intros p _. exists 500. reflexivity.
    + exists st'. split; [exact Hr|]. split.
      * rewrite Hs. vm_compute. reflexivity.
      * assert (Hst : st' = snd (run sample_cfg w b)) by (rewrite Hr; reflexivity).
        rewrite Hst. vm_compute. reflexivity.
Defined.

(** A POST that raises stops the run. *)
Example slack_raises_stops_run :
  let listed := ["constraints/a"; "constraints/b"] in
  let w := with_slack (sample_world (fun _ => listed))
             (fun _ _ => inl (OtherException "connection refused")) in
  let '(r, st') := run sample_cfg w (sample_bucket (lines ["constraints/a"])) in
  r = SysExit 1
  /\ slack_posts (trace st') = ["New Organization Policy Detected: constraints/b"]
  /\ tweets (trace st') = [] /\ uploads (trace st') = [].
Proof. vm_compute. repeat split; reflexivity. Qed.

(** * Further properties of the script *)

(** ** What a run does to the bucket *)

(** When the first listing query raises, with or without a baseline, the
    run prints the exception and ends with status 1, without a side effect
    and with the bucket as it was.  The exception is the last line
    printed, after the line of the download when there is a baseline. *)
Theorem listing_failure_stops_run cfg w b e :
  org_policy_api w 0 = inl e ->
  exists st',
    run cfg w b = (SysExit 1, st')
    /\ exit_status (fst (run cfg w b)) = 1
    /\ trace st' = [] /\ bucket st' = b
    /\ stdout st'
       = match b !! POLICY_FILE cfg with
         | Some _ => ["Org Policy File Downloaded from GCS Bucket"; exn_str e]
         | None => [exn_str e]
         end.
Proof.
  intros Hapi.
  cut (exists st', run cfg w b = (SysExit 1, st')
                   /\ trace st' = [] /\ bucket st' = b
                   /\ stdout st'
                      = match b !! POLICY_FILE cfg with
                        | Some _ => ["Org Policy File Downloaded from GCS Bucket";
                                     exn_str e]
                        | None => [exn_str e]
                        end).
  { intros (st' & Hr & Hrest). exists st'. rewrite Hr. done. }
  unfold run, compare_policies, fetch_old_policies, list_blobs.
  unfold bind at 1. unfold bind at 1. cbn [initial bucket].
  destruct (b !! POLICY_FILE cfg) as [text|] eqn:Hb.
  - rewrite bool_decide_eq_true_2
      by (apply elem_of_elements, elem_of_dom; eauto).
    unfold download_policy_file, download_to_filename, write_file, read_file,
      bind, print, ret. cbn. rewrite Hb. cbn. rewrite lookup_insert_eq. cbn.
    unfold constraint_transform, list_org_policies, bind, next_query,
      try_except, call, raise, print, sys_exit. cbn. rewrite Hapi. cbn.
    eexists. split; [reflexivity|]. cbn. done.
  - rewrite bool_decide_eq_false_2
      by (rewrite elem_of_elements, elem_of_dom, Hb; intros [? [=]]).
    unfold upload_policy_file, constraint_transform, list_org_policies, bind,
      next_query, try_except, call, raise, print, sys_exit. cbn.
    rewrite Hapi. cbn. eexists. split; [reflexivity|]. cbn. done.
Qed.

Lemma listing_failure_stops_run_witness :
  let w := with_policy_api (sample_world (fun _ => []))
             (fun _ => inl (OtherException "HttpError 403")) in
  exists st', run sample_cfg w (sample_bucket (lines ["constraints/a"]))
              = (SysExit 1, st')
              /\ trace st' = []
              /\ stdout st' = ["Org Policy File Downloaded from GCS Bucket";
                               "HttpError 403"].
Proof.
  intros w.
  destruct (listing_failure_stops_run sample_cfg w
              (sample_bucket (lines ["constraints/a"]))
              (OtherException "HttpError 403"))
    as (st' & Hr & _ & Ht & _ & Hout).
  - reflexivity.
  - exists st'. split; [exact Hr|]. split; [exact Ht | exact Hout].
Defined.

(** The end of the [else] branch: an upload as the last side effect, the
    blob overwritten and status 0, or a failure with the bucket as it was. *)
Lemma notified_upload cfg w new b0 n r st' :
  notified cfg w new [] b0 n r st' ->
  (r = SysExit 0
   /\ exists before content,
        trace st' = before ++ [EvUpload (POLICY_FILE cfg) content]
        /\ uploads before = []
        /\ bucket st' = <[POLICY_FILE cfg := content]> b0)
  \/ (failed r /\ uploads (trace st') = [] /\ bucket st' = b0).
Proof.
  intros (gh & url & commit & sl & tw & up & Ht & Hgh & _ & _ & _ & _ & _ & Hend).
  cbn in Ht.
  destruct (trace_shows gh url commit sl tw [] Hgh) as (_ & _ & Hu).
  destruct Hend as [(-> & names & _ & -> & Hb)|(Hf & -> & Hb)].
  - left. split; [reflexivity|].
    exists (gh ++ slack_events url sl ++ tweet_events commit tw),
      (baseline_text names).
    rewrite Ht, <- !app_assoc. split; [reflexivity|].
    rewrite !app_nil_r in Hu. done.
  - right. rewrite Ht. done.
Qed.

(** In every run the baseline is written at most once.  Either nothing is
    uploaded and the bucket is as it was, or the upload of the baseline
    blob is the last side effect of the run and the run ends by
    [sys.exit(0)]. *)
Theorem run_saves_at_most_once cfg w b :
  let r := fst (run cfg w b) in
  let st' := snd (run cfg w b) in
  (r <> SysExit 0 /\ uploads (trace st') = [] /\ bucket st' = b)
  \/ (r = SysExit 0
      /\ exists before content,
           trace st' = before ++ [EvUpload (POLICY_FILE cfg) content]
           /\ uploads before = []
           /\ bucket st' = <[POLICY_FILE cfg := content]> b).
Proof.
  cbv zeta. destruct (b !! POLICY_FILE cfg) as [text|] eqn:Hb.
  - pose proof (run_found cfg w b text Hb) as H.
    destruct (listing w 0) as [current|].
    + case_decide as Hsort.
      * destruct H as (st' & -> & Ht & Hbk). cbn. rewrite Ht. left. done.
      * destruct H as (st1 & E & Ht1 & Hb1 & Hn1).
        destruct (run cfg w b) as [r st'] eqn:Hrun. symmetry in E.
        apply notify_and_save_run in E. rewrite Ht1, Hb1, Hn1 in E.
        apply notified_upload in E as [(-> & Hup)|(Hf & Hu & Hbk)]; cbn.
        -- right. done.
        -- left. split; [|done]. intros ->. cbn in Hf. discriminate.
    + destruct H as (st' & -> & Ht & Hbk). cbn. rewrite Ht. left. done.
  - destruct (run_missing cfg w b Hb) as (st' & H).
    destruct (listing w 0) as [names|]; destruct H as (-> & Ht & Hbk); cbn.
    + right. split; [reflexivity|]. exists [], (baseline_text names). done.
    + rewrite Ht. left. done.
Qed.

(** No run creates, changes or deletes a blob other than the baseline. *)
Theorem run_keeps_other_blobs cfg w b blob :
  blob <> POLICY_FILE cfg ->
  bucket (snd (run cfg w b)) !! blob = b !! blob.
Proof.
  intros Hne.
  assert (bucket (snd (run cfg w b)) = b
          \/ exists content,
               bucket (snd (run cfg w b)) = <[POLICY_FILE cfg := content]> b)
    as [->|[content ->]]; [|reflexivity|by rewrite lookup_insert_ne].
  destruct (b !! POLICY_FILE cfg) as [text|] eqn:Hb.
  - pose proof (run_found cfg w b text Hb) as H.
    destruct (listing w 0) as [current|].
    + case_decide as Hsort.
      * destruct H as (st' & -> & _ & Hbk). left. exact Hbk.
      * destruct H as (st1 & E & Ht1 & Hb1 & Hn1).
        destruct (run cfg w b) as [r st'] eqn:Hrun. symmetry in E.
        apply notify_and_save_run in E. rewrite Ht1, Hb1, Hn1 in E.
        apply notified_upload in E
          as [(_ & _ & content & _ & _ & Hbk)|(_ & _ & Hbk)]; cbn; eauto.
    + destruct H as (st' & -> & _ & Hbk). left. exact Hbk.
  - destruct (run_missing cfg w b Hb) as (st' & H).
    destruct (listing w 0) as [names|]; destruct H as (-> & _ & Hbk); cbn; eauto.
Qed.

Lemma run_keeps_other_blobs_witness :
  let w := sample_world (fun _ => ["constraints/a"; "constraints/b"]) in
  let b := <[ "notes.txt" := "keep" ]> (sample_bucket (lines ["constraints/a"])) in
  bucket (snd (run sample_cfg w b)) !! "notes.txt" = Some "keep".
Proof.
  intros w b.
  rewrite (run_keeps_other_blobs sample_cfg w b "notes.txt").
  - reflexivity.
  - discriminate.
Defined.

(** ** When a run changes nothing *)

(** With a baseline and a listing, [compare_policies] returns to its caller
    exactly when the listing holds the names of the baseline, each as many
    times; in every other case the run ends by [sys.exit] or by an
    exception. *)
Theorem returns_iff_same_names cfg w b text current :
  b !! POLICY_FILE cfg = Some text ->
  listing w 0 = Some current ->
  fst (run cfg w b) = Normal tt <-> current ≡ₚ baseline_lines text.
Proof.
  intros Hb Hl. pose proof (run_found cfg w b text Hb) as H. rewrite Hl in H.
  case_decide as Hsort.
  - destruct H as (st' & -> & _). split; [|done].
    intros _. apply sort_eq_iff, Hsort.
  - destruct H as (st1 & E & Ht1 & Hb1 & Hn1). split.
    + intros Hr. destruct (run cfg w b) as [r st'] eqn:Hrun. cbn in Hr. subst r.
      symmetry in E. apply notify_and_save_run in E.
      rewrite Ht1, Hb1, Hn1 in E.
      apply notified_upload in E as [([=] & _)|(Hf & _)]. destruct Hf.
    + intros Hperm. destruct Hsort. apply sort_eq_iff, Hperm.
Qed.

Lemma returns_iff_same_names_witness :
  let w := sample_world (fun _ => ["constraints/b"; "constraints/a"]) in
  let b := sample_bucket (lines ["constraints/a"; "constraints/b"]) in
  fst (run sample_cfg w b) = Normal tt.
Proof.
  intros w b.
  apply (returns_iff_same_names sample_cfg w b
           (lines ["constraints/a"; "constraints/b"])
           ["constraints/b"; "constraints/a"]).
  - reflexivity.
  - reflexivity.
  - apply perm_swap.
Defined.

(** After a run that saved the baseline, a second run against a policy API
    that still lists the same names finds no difference: it returns without
    a side effect.  The names are such as a line of the file can hold. *)
Theorem second_run_is_noop cfg w b names st1 :
  (forall n, listing w n = Some names) ->
  Forall (fun n => line_safe n = true) names ->
  run cfg w b = (SysExit 0, st1) ->
  exists st2, run cfg w (bucket st1) = (Normal tt, st2)
              /\ trace st2 = [] /\ bucket st2 = bucket st1.
Proof.
  intros Hl Hsafe Hrun.
  assert (Hsaved : bucket st1 !! POLICY_FILE cfg = Some (baseline_text names)).
  { destruct (b !! POLICY_FILE cfg) as [text|] eqn:Hb.
    - pose proof (run_found cfg w b text Hb) as H. rewrite Hl in H.
      case_decide as Hsort.
      + destruct H as (st' & E & _). rewrite Hrun in E. discriminate.
      + destruct H as (st0 & E & Ht0 & Hb0 & Hn0). rewrite Hrun in E.
        symmetry in E. apply notify_and_save_run in E.
        rewrite Ht0, Hb0, Hn0 in E.
        apply notified_shows in E
          as (_ & commit & sl & tw & _ & _ & _ & _ & _ & Hend).
        destruct Hend as [(_ & _ & _ & saved & Hs & _ & Hbk)|(Hf & _)].
        * rewrite Hl in Hs. injection Hs as <-. rewrite Hbk.
          apply lookup_insert_eq.
        * cbn in Hf. discriminate.
    - destruct (run_missing cfg w b Hb) as (st' & H). rewrite Hl in H.
      destruct H as (E & _ & Hbk). rewrite Hrun in E. injection E as <-.
      rewrite Hbk. apply lookup_insert_eq. }
  pose proof (run_found cfg w (bucket st1) _ Hsaved) as H. rewrite Hl in H.
  rewrite decide_True in H; [exact H|].
  rewrite (baseline_lines_text names Hsafe). reflexivity.
Qed.

Lemma second_run_is_noop_witness :
  let names := ["constraints/a"; "constraints/b"; "constraints/c"] in
  let w := sample_world (fun _ => names) in
  let b := sample_bucket (lines ["constraints/a"]) in
  exists st2, run sample_cfg w (bucket (snd (run sample_cfg w b)))
              = (Normal tt, st2)
              /\ trace st2 = [].
Proof.
  intros names w b.
  destruct (second_run_is_noop sample_cfg w b names (snd (run sample_cfg w b)))
    as (st2 & Hr & Ht & _).
  - intros n. reflexivity.
  - repeat constructor.
  - vm_compute. reflexivity.
  - exists st2. split; [exact Hr | exact Ht].
Defined.

(** ** What the loader reads *)

Lemma rstrip_cons c s :
  Py.rstrip (String c s)
  = match Py.rstrip s with
    | EmptyString => if Py.isspace c then EmptyString else String c EmptyString
    | String c' r => String c (String c' r)
    end.
Proof. reflexivity. Qed.

Lemma rstrip_idempotent s : Py.rstrip (Py.rstrip s) = Py.rstrip s.
Proof.
  induction s as [|c s IH]; [reflexivity|]. rewrite rstrip_cons.
  destruct (Py.rstrip s) as [|c' r] eqn:Er.
  - destruct (Py.isspace c) eqn:Ec; [reflexivity|]. cbn. rewrite Ec. reflexivity.
  - rewrite rstrip_cons, IH. reflexivity.
Qed.

Lemma has_char_rstrip c s :
  has_char c s = false -> has_char c (Py.rstrip s) = false.
Proof.
  induction s as [|a s IH]; [reflexivity|]. rewrite rstrip_cons. cbn.
  intros [Ha Hs]%orb_false_iff. specialize (IH Hs).
  destruct (Py.rstrip s) as [|c' r].
  - destruct (Py.isspace a); [reflexivity|]. cbn. rewrite Ha. reflexivity.
  - change (has_char c (String a (String c' r)))
      with (Ascii.eqb a c || has_char c (String c' r)).
    rewrite Ha. exact IH.
Qed.

Lemma universal_newlines_has_no_cr s :
  has_char Py.CR (Py.universal_newlines s) = false.
Proof.
  assert (H : has_char Py.CR (Py.universal_newlines s) = false
              /\ forall c, has_char Py.CR (Py.universal_newlines (String c s)) = false).
  { induction s as [|a s [IH1 IH2]].
    - split; [reflexivity|]. intros c. cbn.
      destruct (Ascii.eqb c Py.CR) eqn:Ec; [reflexivity|]. cbn. rewrite Ec.
      reflexivity.
    - split; [apply IH2|]. intros c.
      change (Py.universal_newlines (String c (String a s)))
        with (if Ascii.eqb c Py.CR
              then if Ascii.eqb a Py.LF
                   then String Py.LF (Py.universal_newlines s)
                   else String Py.LF (Py.universal_newlines (String a s))
              else String c (Py.universal_newlines (String a s))).
      specialize (IH2 a).
      destruct (Ascii.eqb c Py.CR) eqn:Ec.
      + destruct (Ascii.eqb a Py.LF); cbn; [exact IH1 | exact IH2].
      + cbn. rewrite Ec. exact IH2. }
  apply H.
Qed.

(** A line of a text file is a text without a line feed, followed or not
    by one line feed. *)
Lemma file_lines_line s l :
  l ∈ Py.file_lines s ->
  exists body,
    has_char Py.LF body = false
    /\ (l = body \/ l = (body ++ newline)%string)
    /\ (has_char Py.CR s = false -> has_char Py.CR body = false).
Proof.
  revert l. induction s as [|c s IH]; intros l; cbn; [by intros ?%elem_of_nil|].
  destruct (Ascii.eqb c Py.LF) eqn:Ec.
  - intros [->|Hl]%elem_of_cons.
    + exists EmptyString. split; [reflexivity|]. split; [right; reflexivity|done].
    + destruct (IH l Hl) as (body & Hlf & Hshape & Hcr).
      exists body. split; [exact Hlf|]. split; [exact Hshape|].
      intros [_ Hs]%orb_false_iff. auto.
  - destruct (Py.file_lines s) as [|l0 ls] eqn:El.
    + intros ->%list_elem_of_singleton. exists (String c EmptyString).
      cbn. rewrite Ec. split; [reflexivity|]. split; [left; reflexivity|].
      intros [Hc _]%orb_false_iff. rewrite Hc. reflexivity.
    + intros [->|Hl]%elem_of_cons.
      * destruct (IH l0) as (body & Hlf & Hshape & Hcr); [left|].
        exists (String c body). cbn. rewrite Ec, Hlf. split; [reflexivity|].
        split.
        -- destruct Hshape as [->| ->]; [left|right]; reflexivity.
        -- intros [Hc Hs]%orb_false_iff. rewrite Hc. cbn. auto.
      * destruct (IH l) as (body & Hlf & Hshape & Hcr); [right; exact Hl|].
        exists body. split; [exact Hlf|]. split; [exact Hshape|].
        intros [_ Hs]%orb_false_iff. auto.
Qed.

(** Whatever the baseline file holds, no name read from it ends in white
    space or has a line feed or a carriage return in it. *)
Theorem loaded_names_are_stripped text n :
  n ∈ baseline_lines text ->
  Py.rstrip n = n /\ has_char Py.LF n = false /\ has_char Py.CR n = false.
Proof.
  unfold baseline_lines, Py.read_text_lines.
  intros (l & -> & Hl)%list_elem_of_fmap.
  destruct (file_lines_line _ l Hl) as (body & Hlf & Hshape & Hcr).
  specialize (Hcr (universal_newlines_has_no_cr text)).
  assert (Hstrip : Py.rstrip l = Py.rstrip body)
    by (destruct Hshape as [->| ->]; [reflexivity | apply rstrip_app_lf]).
  rewrite Hstrip. split; [apply rstrip_idempotent|].
  split; apply has_char_rstrip; assumption.
Qed.

Lemma loaded_names_are_stripped_witness :
  Py.rstrip "constraints/a" = "constraints/a".
Proof.
  apply (loaded_names_are_stripped
           (String Py.CR ("constraints/a  " ++ crlf ++ "constraints/b"))
           "constraints/a").
  apply (bool_decide_unpack _). vm_compute. exact I.
Defined.

Lemma universal_newlines_app_crlf x t :
  has_char Py.CR x = false ->
  Py.universal_newlines (x ++ crlf ++ t)
  = (x ++ newline ++ Py.universal_newlines t)%string.
Proof.
  induction x as [|a x IH]; [reflexivity|].
  rewrite !app_String. cbn.
  intros [Ha Hx]%orb_false_iff. rewrite Ha, (IH Hx). reflexivity.
Qed.

Lemma baseline_lines_join_lf names :
  Forall (fun n => line_safe n = true) names ->
  map Py.rstrip (Py.file_lines (Py.join newline names)) = names.
Proof.
  induction 1 as [|n names Hn Hnames IH]; [reflexivity|].
  apply line_safe_inv in Hn as (Hne & Hlf & _ & Hstrip).
  destruct names as [|m names].
  - cbn. rewrite (file_lines_single n Hlf Hne). cbn. rewrite Hstrip. reflexivity.
  - change (Py.join newline (n :: m :: names))
      with (n ++ String Py.LF (Py.join newline (m :: names)))%string.
    rewrite (file_lines_app_lf _ _ Hlf). cbn [map].
    rewrite rstrip_app_lf, Hstrip, IH. reflexivity.
Qed.

(** The loader does not depend on the line ends of the file: a baseline
    whose lines end in a carriage return and a line feed, and a baseline
    with a line feed after its last name, are read as the same names as
    the file that [upload_policy_file] writes. *)
Theorem baseline_lines_line_ends names :
  Forall (fun n => line_safe n = true) names ->
  names <> [] ->
  baseline_lines (Py.join crlf names) = names
  /\ baseline_lines (baseline_text names ++ newline) = names.
Proof.
  intros Hsafe Hne. split.
  - unfold baseline_lines, Py.read_text_lines.
    assert (Hu : Py.universal_newlines (Py.join crlf names)
                 = Py.join newline names).
    { clear Hne. induction Hsafe as [|n names Hn Hnames IH]; [reflexivity|].
      apply line_safe_inv in Hn as (_ & _ & Hcr & _).
      destruct names as [|m names].
      - apply universal_newlines_no_cr, Hcr.
      - change (Py.join crlf (n :: m :: names))
          with (n ++ crlf ++ Py.join crlf (m :: names))%string.
        rewrite (universal_newlines_app_crlf _ _ Hcr), IH. reflexivity. }
    rewrite Hu. apply baseline_lines_join_lf, Hsafe.
  - unfold baseline_lines, Py.read_text_lines.
    rewrite universal_newlines_no_cr.
    2: { rewrite has_char_app, (baseline_text_no_cr names Hsafe). reflexivity. }
    unfold baseline_text.
    induction Hsafe as [|n names Hn Hnames IH]; [done|].
    apply line_safe_inv in Hn as (_ & Hlf & _ & Hstrip).
    destruct names as [|m names].
    + cbn [Py.join]. unfold newline at 1.
      rewrite (file_lines_app_lf n EmptyString Hlf). cbn.
      rewrite rstrip_app_lf, Hstrip. reflexivity.
    + change (Py.join newline (n :: m :: names))
        with (n ++ String Py.LF (Py.join newline (m :: names)))%string.
      rewrite string_app_assoc.
      change (String Py.LF (Py.join newline (m :: names)) ++ newline)%string
        with (String Py.LF (Py.join newline (m :: names) ++ newline)).
      rewrite (file_lines_app_lf _ _ Hlf). cbn [map].
      rewrite rstrip_app_lf, Hstrip, IH by done. reflexivity.
Qed.

Lemma baseline_lines_line_ends_witness :
  baseline_lines (Py.join crlf ["constraints/a"; "constraints/b"])
  = ["constraints/a"; "constraints/b"].
Proof.
  apply (baseline_lines_line_ends ["constraints/a"; "constraints/b"]).
  - repeat constructor.
  - discriminate.
Defined.

(** ** The steps of the pull request *)

(** [create_pr], once it has the token, makes the calls to GitHub in this
    order: the repository, the default branch, the new branch, the old
    file, the file update, the pull request.  It stops, with status 1, at
    the first call that GitHub refuses, after printing the message of
    that call, and what was done before stays done: a refusal after the
    new branch leaves the branch, a refusal of the pull request leaves the
    branch and the updated file.  When GitHub accepts every call the three
    side effects are made and the result of the file update is returned.
    The bucket is not touched.  [out] is what is printed after the token
    was read. *)
Theorem create_pr_steps cfg w content st token :
  fst (get_latest_secret cfg w (S_TOKEN_NAME cfg) st) = Normal token ->
  let g := github w token in
  let st1 := snd (get_latest_secret cfg w (S_TOKEN_NAME cfg) st) in
  let r := fst (create_pr cfg w content st) in
  let st' := snd (create_pr cfg w content st) in
  bucket st' = bucket st
  /\ exists evs out,
       trace st' = trace st ++ evs
       /\ stdout st' = stdout st1 ++ out
       /\ match get_repo g, get_branch g with
          | false, _ =>
              r = SysExit 1 /\ evs = []
              /\ out = ["There was an error reaching the repository."]
          | true, None =>
              r = SysExit 1 /\ evs = []
              /\ out = ["There was an error reaching the default branch."]
          | true, Some sha =>
              let branch := EvCreateBranch "refs/heads/new_policies" sha in
              if create_git_ref g then
                match get_contents g with
                | None =>
                    r = SysExit 1 /\ evs = [branch]
                    /\ out = ["Creating a new branch.";
                              "There was an error fetching the old policy file."]
                | Some (path, _) =>
                    let update := EvUpdateFile path "New Policies Detected"
                                    content "new_policies" in
                    match update_file g with
                    | None =>
                        r = SysExit 1 /\ evs = [branch]
                        /\ out = ["Creating a new branch.";
                                  "There was an error updating the old policy file."]
                    | Some commit =>
                        if create_pull g
                        then r = Normal commit
                             /\ evs = pull_request_events w sha path content
                             /\ out = ["Creating a new branch.";
                                       "Creating GitHub Pull Request."]
                        else r = SysExit 1 /\ evs = [branch; update]
                             /\ out = ["Creating a new branch.";
                                       "Creating GitHub Pull Request.";
                                       "There was an error creating the pull request."]
                    end
                end
              else r = SysExit 1 /\ evs = []
                   /\ out = ["Creating a new branch.";
                             "There was an error creating our new branch."]
          end.
Proof.
  intros Htoken. cbv zeta.
  destruct (create_pr cfg w content st) as [r st'] eqn:E. cbn [fst snd].
  unfold create_pr in E. unfold bind at 1 in E.
  destruct (get_latest_secret cfg w (S_TOKEN_NAME cfg) st) as [r1 st1] eqn:E1.
  cbn in Htoken. subst r1. cbn [snd].
  apply get_latest_secret_effects in E1 as (Hb1 & Ht1 & _).
  rewrite app_nil_r in Ht1. rewrite <- Hb1, <- Ht1.
  revert E. unfold bind, print, emit, sys_exit, ret, pull_request_events.
  destruct (get_repo (github w token)); cbn;
    [destruct (get_branch (github w token)) as [sha|]; cbn;
     [destruct (create_git_ref (github w token)); cbn;
      [destruct (get_contents (github w token)) as [[path fsha]|]; cbn;
       [destruct (update_file (github w token)) as [res|]; cbn;
        [destruct (create_pull (github w token)); cbn|]|]|]|]|];
    intros [= <- <-]; cbn.
  all: split; [reflexivity|].
  all: eexists; eexists; split;
    [rewrite <- ?app_assoc; cbn;
     first [reflexivity | symmetry; apply app_nil_r]
    | split; [rewrite <- ?app_assoc; cbn; reflexivity | done]].
Qed.

Lemma create_pr_steps_witness :
  let refused := {| get_repo := true; get_branch := Some "sha0";
                    create_git_ref := true;
                    get_contents := Some ("policies/org_policy.json", "sha1");
                    update_file := None; create_pull := true |} in
  let w := with_github (sample_world (fun _ => [])) (fun _ => refused) in
  let content := JsonDumps (response_of []) in
  fst (create_pr sample_cfg w content (initial ∅)) = SysExit 1
  /\ trace (snd (create_pr sample_cfg w content (initial ∅)))
     = [EvCreateBranch "refs/heads/new_policies" "sha0"]
  /\ stdout (snd (create_pr sample_cfg w content (initial ∅)))
     = ["Getting token secret."; "Creating a new branch.";
        "There was an error updating the old policy file."].
Proof.
  intros refused w content.
  destruct (create_pr_steps sample_cfg w content (initial ∅)
              (Some "secret of projects/project/secrets/token/versions/latest"))
    as (_ & evs & out & Ht & Ho & Hr & Hevs & Hout).
  - reflexivity.
  - split; [exact Hr|]. split.
    + rewrite Ht, Hevs. reflexivity.
    + rewrite Ho, Hout. reflexivity.
Defined.

Lemma later_stages_grow cfg w new commit st r st' :
  bind (post_to_slack cfg w new)
    (fun _ => bind (post_to_twitter cfg w new commit)
                (fun _ => upload_policy_file cfg w)) st = (r : Result unit, st') ->
  exists rest, trace st' = trace st ++ rest.
Proof.
  intros H.
  apply bind_inv in H as [([] & st1 & H1 & H)|[(c & H1 & _)|(e & H1 & _)]].
  2, 3: apply post_to_slack_run in H1 as (url & l1 & _ & (_ & Ht & _) & _); eauto.
  apply post_to_slack_run in H1 as (url & l1 & _ & (_ & Ht1 & _) & _).
  apply bind_inv in H as [([] & st2 & H2 & H)|[(c & H2 & _)|(e & H2 & _)]].
  2, 3: apply post_to_twitter_run in H2 as (l2 & _ & (_ & Ht2 & _) & _);
    rewrite Ht2, Ht1, <- app_assoc; eauto.
  apply post_to_twitter_run in H2 as (l2 & _ & (_ & Ht2 & _) & _).
  destruct (@upload_policy_file_run cfg w unit st2) as (st3 & _ & Hup).
  destruct (listing w (api_calls st2)); destruct Hup as (E & Ht3 & _);
    rewrite E in H; injection H as _ <-; rewrite Ht3, Ht2, Ht1, <- !app_assoc;
    eauto.
Qed.

(** In a run that found a difference, the file of the pull request holds
    the whole answer of the policy API to the second listing query of the
    run, not the names that were compared and not only the new ones; the
    three GitHub calls are the first side effects of the run. *)
Theorem pull_request_holds_second_listing cfg w b text current response :
  b !! POLICY_FILE cfg = Some text ->
  listing w 0 = Some current ->
  Py.sort current <> Py.sort (baseline_lines text) ->
  org_policy_api w 1 = inr response ->
  secrets_readable w -> github_accepts w ->
  exists sha path rest,
    trace (snd (run cfg w b))
    = pull_request_events w sha path (JsonDumps response) ++ rest.
Proof.
  intros Hb Hl Hsort Hapi Hs Hg.
  pose proof (run_found cfg w b text Hb) as H. rewrite Hl in H.
  rewrite decide_False in H by exact Hsort.
  destruct H as (st1 & -> & Ht1 & Hb1 & Hn1).
  unfold notify_and_save, bind at 1. cbn [print].
  unfold create_pr_file_content, bind at 1. unfold bind at 1.
  match goal with
  | |- context [list_org_policies w ?s] =>
      destruct (list_org_policies_run w s) as (st2 & (_ & Ht2 & _) & ->)
  end.
  cbn [api_calls trace] in *. rewrite Hn1, Hapi.
  destruct (create_pr_accepted cfg w (JsonDumps response) st2 Hs Hg)
    as (token & commit & path & sha & st3 & -> & _ & (_ & Ht3 & _)).
  match goal with
  | |- context [snd (bind ?m ?k ?s)] =>
      destruct (bind m k s) as [r st'] eqn:E
  end.
  apply later_stages_grow in E as (rest & Ht).
  exists sha, path, rest. cbn [snd].
  rewrite Ht, Ht3, Ht2, Ht1. reflexivity.
Qed.

Lemma pull_request_holds_second_listing_witness :
  let listed n := if Nat.eqb n 1 then ["constraints/a"; "constraints/b"; "constraints/z"]
                  else ["constraints/a"; "constraints/b"] in
  let w := sample_world listed in
  let b := sample_bucket (lines ["constraints/a"]) in
  exists sha path rest,
    trace (snd (run sample_cfg w b))
    = pull_request_events w sha path
        (JsonDumps (response_of ["constraints/a"; "constraints/b"; "constraints/z"]))
      ++ rest.
Proof.
  intros listed w b.
  apply (pull_request_holds_second_listing sample_cfg w b
           (lines ["constraints/a"]) ["constraints/a"; "constraints/b"]).
  - reflexivity.
  - reflexivity.
  - vm_compute. discriminate.
  - reflexivity.
  - intros path. eexists. reflexivity.
  - intros token. cbn. repeat split; eauto.
Defined.

(** ** The credentials of the social network *)

(** [post_to_slack] reads the four secrets of the social network before its
    loop although it does not use them: when one of them cannot be read,
    for another reason than a failed precondition, the chat notifier ends
    with an uncaught exception and no chat message is sent. *)
Theorem post_to_slack_reads_twitter_secrets cfg w secret_name e l st :
  secret_manager w (secret_path cfg secret_name) = inl e ->
  (forall msg, e <> FailedPrecondition msg) ->
  secret_name ∈ [CONSUMER_KEY_NAME cfg; CONSUMER_KEY_SECRET_NAME cfg;
                 ACCESS_TOKEN_NAME cfg; ACCESS_TOKEN_SECRET_NAME cfg] ->
  exists e' st',
    post_to_slack cfg w l st = (Raised e', st')
    /\ trace st' = trace st /\ bucket st' = bucket st.
Proof.
  intros He Hne Hin. unfold post_to_slack.
  destruct (get_latest_secret_cases cfg w (S_SLACK_NAME cfg) st)
    as (r & st1 & E1 & [[url ->]|(e1 & -> & _)]).
  - pose proof (get_latest_secret_effects _ _ _ _ _ _ E1) as (Hb1 & Ht1 & _).
    unfold bind at 1. rewrite E1. unfold create_twitter_connection.
    destruct (get_twitter_secrets_raises cfg w _ e st1 He Hne Hin)
      as (e' & st2 & E2 & _).
    destruct (get_twitter_secrets_silent cfg w _ _ _ E2) as [(Hb2 & Ht2 & _) _].
    exists e', st2. split.
    + apply bind_raised, bind_raised, E2.
    + rewrite Ht2, Hb2, Ht1, Hb1, !app_nil_r. done.
  - pose proof (get_latest_secret_effects _ _ _ _ _ _ E1) as (Hb1 & Ht1 & _).
    exists e1, st1. split; [apply bind_raised, E1|].
    rewrite Ht1, app_nil_r. done.
Qed.

Lemma post_to_slack_reads_twitter_secrets_witness :
  let w := with_secrets (sample_world (fun _ => []))
             (fun path => if String.eqb path "projects/project/secrets/at/versions/latest"
                          then inl (OtherException "permission denied")
                          else inr path) in
  exists e' st',
    post_to_slack sample_cfg w ["constraints/a"] (initial ∅) = (Raised e', st')
    /\ trace st' = [].
Proof.
  intros w.
  destruct (post_to_slack_reads_twitter_secrets sample_cfg w "at"
              (OtherException "permission denied") ["constraints/a"] (initial ∅))
    as (e' & st' & Hr & Ht & _).
  - reflexivity.
  - discriminate.
  - apply (bool_decide_unpack _). vm_compute. exact I.
  - exists e', st'. split; [exact Hr | exact Ht].
Defined.

Lemma get_latest_secret_read cfg w secret_name st :
  secrets_readable w ->
  exists s st',
    get_latest_secret cfg w secret_name st = (Normal (Some s), st')
    /\ trace st' = trace st
    /\ stdout st' = stdout st ++ [("Getting " ++ secret_name ++ " secret.")%string].
Proof.
  intros Hs.
  destruct (Hs (secret_path cfg secret_name)) as [secret Hsec].
  unfold secret_path in Hsec.
  unfold get_latest_secret, try_except, bind, call, print, raise, ret.
  cbn. rewrite Hsec. eauto.
Qed.

Lemma create_twitter_connection_refused cfg w st :
  secrets_readable w ->
  (forall creds, exists e, tweepy_auth w creds = inl e) ->
  exists creds e st',
    fst (get_twitter_secrets cfg w st) = Normal creds
    /\ tweepy_auth w creds = inl e
    /\ create_twitter_connection cfg w st = (Normal None, st')
    /\ trace st' = trace st
    /\ stdout st'
       = stdout st
         ++ [("Getting " ++ CONSUMER_KEY_NAME cfg ++ " secret.")%string;
             ("Getting " ++ CONSUMER_KEY_SECRET_NAME cfg ++ " secret.")%string;
             ("Getting " ++ ACCESS_TOKEN_NAME cfg ++ " secret.")%string;
             ("Getting " ++ ACCESS_TOKEN_SECRET_NAME cfg ++ " secret.")%string;
             exn_str e].
Proof.
  intros Hs Hauth.
  unfold create_twitter_connection, get_twitter_secrets, bind.
  destruct (get_latest_secret_read cfg w (CONSUMER_KEY_NAME cfg) st Hs)
    as (s1 & st1 & -> & Ht1 & Ho1).
  destruct (get_latest_secret_read cfg w (CONSUMER_KEY_SECRET_NAME cfg) st1 Hs)
    as (s2 & st2 & -> & Ht2 & Ho2).
  destruct (get_latest_secret_read cfg w (ACCESS_TOKEN_NAME cfg) st2 Hs)
    as (s3 & st3 & -> & Ht3 & Ho3).
  destruct (get_latest_secret_read cfg w (ACCESS_TOKEN_SECRET_NAME cfg) st3 Hs)
    as (s4 & st4 & -> & Ht4 & Ho4).
  unfold try_except, call, ret, raise, print. cbn.
  match goal with
  | |- context [tweepy_auth w ?c] => destruct (Hauth c) as [e He]; exists c, e
  end.
  rewrite He. cbn. eexists. split; [reflexivity|]. split; [reflexivity|].
  split; [reflexivity|]. cbn. split; [congruence|].
  rewrite Ho4, Ho3, Ho2, Ho1, <- !app_assoc. reflexivity.
Qed.

(** An exception of the authentication with the social network is printed,
    after the four lines of the secrets that were read, and dropped by
    [create_twitter_connection], which returns [None].  [post_to_twitter]
    then returns when there is no new policy, and otherwise ends the run
    with status 1 at the first policy, without a social post: what it
    prints last is the error of calling a method of [None]. *)
Theorem twitter_auth_error_is_deferred cfg w commit st :
  secrets_readable w ->
  (forall creds, exists e, tweepy_auth w creds = inl e) ->
  exists creds e st1,
    fst (get_twitter_secrets cfg w st) = Normal creds
    /\ tweepy_auth w creds = inl e
    /\ create_twitter_connection cfg w st = (Normal None, st1)
    /\ trace st1 = trace st
    /\ stdout st1
       = stdout st
         ++ [("Getting " ++ CONSUMER_KEY_NAME cfg ++ " secret.")%string;
             ("Getting " ++ CONSUMER_KEY_SECRET_NAME cfg ++ " secret.")%string;
             ("Getting " ++ ACCESS_TOKEN_NAME cfg ++ " secret.")%string;
             ("Getting " ++ ACCESS_TOKEN_SECRET_NAME cfg ++ " secret.")%string;
             exn_str e]
    /\ post_to_twitter cfg w [] commit st = (Normal tt, st1)
    /\ forall policy l,
         exists st',
           post_to_twitter cfg w (policy :: l) commit st = (SysExit 1, st')
           /\ trace st' = trace st
           /\ stdout st'
              = stdout st1
                ++ ["'NoneType' object has no attribute 'update_status'"].
Proof.
  intros Hs Hauth.
  destruct (create_twitter_connection_refused cfg w st Hs Hauth)
    as (creds & e & st1 & Hc & He & E & Ht & Ho).
  exists creds, e, st1. repeat (split; [assumption|]). split.
  - unfold post_to_twitter, bind. rewrite E. reflexivity.
  - intros policy l. unfold post_to_twitter, bind at 1. rewrite E.
    cbn [for_each]. unfold bind, tweet_one, try_except,
      update_status, raise, print, sys_exit. cbn.
    eexists. split; [reflexivity|]. cbn. split; [exact Ht | reflexivity].
Qed.

Lemma twitter_auth_error_is_deferred_witness :
  let w := with_tweepy_auth (sample_world (fun _ => []))
             (fun _ => inl (OtherException "invalid consumer key")) in
  let commit := {| commit_url := "https://example.org/commit/1" |} in
  fst (create_twitter_connection sample_cfg w (initial ∅)) = Normal None
  /\ stdout (snd (create_twitter_connection sample_cfg w (initial ∅)))
     = ["Getting ck secret."; "Getting cks secret."; "Getting at secret.";
        "Getting ats secret."; "invalid consumer key"]
  /\ exists st',
       post_to_twitter sample_cfg w ["constraints/a"] commit (initial ∅)
       = (SysExit 1, st')
       /\ trace st' = []
       /\ stdout st'
          = ["Getting ck secret."; "Getting cks secret."; "Getting at secret.";
             "Getting ats secret."; "invalid consumer key";
             "'NoneType' object has no attribute 'update_status'"].
Proof.
  intros w commit.
  destruct (twitter_auth_error_is_deferred sample_cfg w commit (initial ∅))
    as (creds & e & st1 & Hc & He & E & Ht & Ho & _ & H).
  - intros path. eexists. reflexivity.
  - intros creds. eexists. reflexivity.
  - injection He as <-. rewrite E. cbn [fst snd]. split; [reflexivity|].
    split; [rewrite Ho; reflexivity|].
    destruct (H "constraints/a" []) as (st' & E' & Ht' & Ho').
    exists st'. split; [exact E'|]. split; [exact Ht'|].
    rewrite Ho', Ho. reflexivity.
Defined.

(** ** The name in a social post *)

Lemma startswith_has_slash s :
  Py.startswith "constraints/" s = true -> has_char "/" s = true.
Proof.
  intros [tail ->]%startswith_app. rewrite has_char_app. reflexivity.
Qed.

Lemma split_without_slash s :
  has_char "/" s = false -> Py.split_go "constraints/" 0 s = [s].
Proof.
  induction s as [|c s IH]; [reflexivity|]. intros Hs.
  change (Py.split_go "constraints/" 0 (String c s))
    with (if Py.startswith "constraints/" (String c s)
          then EmptyString
               :: Py.split_go "constraints/" (String.length "constraints/" - 1) s
          else match Py.split_go "constraints/" 0 s with
               | p :: ps => String c p :: ps
               | [] => [String c EmptyString]
               end).
  destruct (Py.startswith "constraints/" (String c s)) eqn:Hstart.
  - apply startswith_has_slash in Hstart. congruence.
  - cbn in Hs. apply orb_false_iff in Hs as [_ Hs]. rewrite (IH Hs). reflexivity.
Qed.

(** For a name made of [constraints/] and a text without a slash, the
    social post names that text; for a name in which [constraints/] does
    not occur, the post names the whole name. *)
Theorem tweet_text_names_the_constraint commit :
  (forall short, has_char "/" short = false ->
     tweet_text ("constraints/" ++ short) commit
     = ("New Organization Policy Detected: " ++ short ++ " "
        ++ commit_url commit)%string)
  /\ (forall policy,
        (forall before after,
           policy <> (before ++ "constraints/" ++ after)%string) ->
        tweet_text policy commit
        = ("New Organization Policy Detected: " ++ policy ++ " "
           ++ commit_url commit)%string).
Proof.
  split.
  - intros short Hshort. unfold tweet_text, Py.split.
    change (Py.split_go "constraints/" 0 ("constraints/" ++ short))
      with (EmptyString :: Py.split_go "constraints/" 0 short).
    rewrite (split_without_slash short Hshort). reflexivity.
  - intros policy Hnone. unfold tweet_text.
    destruct (last_piece "constraints/" policy) as [->|[before H]]; [done| |].
    + reflexivity.
    + destruct (Hnone _ _ H).
Qed.

Lemma tweet_text_names_the_constraint_witness :
  tweet_text "constraints/compute.disableSerialPortAccess"
    {| commit_url := "https://example.org/commit/1" |}
  = "New Organization Policy Detected: compute.disableSerialPortAccess https://example.org/commit/1".
Proof.
  apply (proj1 (tweet_text_names_the_constraint
                  {| commit_url := "https://example.org/commit/1" |})
           "compute.disableSerialPortAccess").
  reflexivity.
Defined.

(** ** The entry point *)

Lemma blind_ret {A} (a : A) : stdout_blind (ret a).
Proof. intros printed st1 st2 H. done. Qed.

Lemma blind_sys_exit {A} code : stdout_blind (@sys_exit A code).
Proof. intros printed st1 st2 H. done. Qed.

Lemma blind_raise {A} e : stdout_blind (@raise A e).
Proof. intros printed st1 st2 H. done. Qed.

Lemma blind_call {A} (x : exn + A) : stdout_blind (call x).
Proof. destruct x; [apply blind_raise | apply blind_ret]. Qed.

Lemma blind_print line : stdout_blind (print line).
Proof.
  intros printed st1 st2 (Hb & Hf & Hn & Ht & Ho). unfold same_but_stdout. cbn.
  rewrite Ho, app_assoc. done.
Qed.

Lemma blind_emit ev : stdout_blind (emit ev).
Proof.
  intros printed st1 st2 (Hb & Hf & Hn & Ht & Ho). unfold same_but_stdout. cbn.
  rewrite Ht. done.
Qed.

Lemma blind_next_query : stdout_blind next_query.
Proof.
  intros printed st1 st2 (Hb & Hf & Hn & Ht & Ho). unfold same_but_stdout. cbn.
  rewrite Hn. done.
Qed.

Lemma blind_list_blobs : stdout_blind list_blobs.
Proof.
  intros printed st1 st2 (Hb & Hf & Hn & Ht & Ho). unfold same_but_stdout. cbn.
  rewrite Hb. done.
Qed.

Lemma blind_write_file path text : stdout_blind (write_file path text).
Proof.
  intros printed st1 st2 (Hb & Hf & Hn & Ht & Ho). unfold same_but_stdout. cbn.
  rewrite Hf. done.
Qed.

Lemma blind_read_file path : stdout_blind (read_file path).
Proof.
  intros printed st1 st2 (Hb & Hf & Hn & Ht & Ho). unfold read_file. rewrite Hf.
  destruct (files st2 !! path); done.
Qed.

Lemma blind_bind {A B} (m : M A) (k : A -> M B) :
  stdout_blind m -> (forall a, stdout_blind (k a)) -> stdout_blind (bind m k).
Proof.
  intros Hm Hk printed st1 st2 H. unfold bind.
  destruct (Hm printed st1 st2 H) as [Hr Hs].
  destruct (m st1) as [[a|c|e] s1]; destruct (m st2) as [[a'|c'|e'] s2];
    cbn in Hr, Hs; try discriminate; injection Hr as <-; [|done..].
  apply Hk, Hs.
Qed.

Lemma blind_try_except {A} (body : M A) handler :
  stdout_blind body -> (forall e h, handler e = Some h -> stdout_blind h) ->
  stdout_blind (try_except body handler).
Proof.
  intros Hb Hh printed st1 st2 H. unfold try_except.
  destruct (Hb printed st1 st2 H) as [Hr Hs].
  destruct (body st1) as [[a|c|e] s1]; destruct (body st2) as [[a'|c'|e'] s2];
    cbn in Hr, Hs; try discriminate; injection Hr as <-; [done..|].
  destruct (handler e) as [h|] eqn:Eh; [|done]. eapply Hh; eauto.
Qed.

Lemma blind_for_each {A} (l : list A) (body : A -> M unit) :
  (forall x, stdout_blind (body x)) -> stdout_blind (for_each l body).
Proof.
  intros Hbody. induction l as [|x l IH]; cbn; [apply blind_ret|].
  apply blind_bind; [apply Hbody | intros _; exact IH].
Qed.

Lemma blind_upload_from_filename blob path :
  stdout_blind (upload_from_filename blob path).
Proof.
  unfold upload_from_filename. apply blind_bind; [apply blind_read_file|].
  intros text printed st1 st2 (Hb & Hf & Hn & Ht & Ho).
  unfold same_but_stdout. cbn. rewrite Hb, Hf, Ht. done.
Qed.

Lemma blind_download_to_filename blob path :
  stdout_blind (download_to_filename blob path).
Proof.
  intros printed st1 st2 H. unfold download_to_filename.
  destruct H as (Hb & Hf & Hn & Ht & Ho). rewrite Hb.
  destruct (bucket st2 !! blob); [|done].
  apply blind_write_file. done.
Qed.

(** One step of a proof that a function of the script is blind to the
    printed lines *)
Ltac blind_step :=
  first
    [ apply blind_ret | apply blind_sys_exit | apply blind_raise
    | apply blind_call | apply blind_print | apply blind_emit
    | apply blind_next_query | apply blind_list_blobs
    | apply blind_write_file | apply blind_read_file
    | apply blind_upload_from_filename | apply blind_download_to_filename
    | apply blind_bind; [|intros ?]
    | apply blind_for_each; intros ?
    | apply blind_try_except; [|intros ? ? [= <-]] ].

Section Blind.

Context (cfg : Config) (w : World).

Lemma blind_get_latest_secret secret_name :
  stdout_blind (get_latest_secret cfg w secret_name).
Proof.
  unfold get_latest_secret. apply blind_try_except; [repeat blind_step|].
  intros [m|m|m] h [= <-]. repeat blind_step.
Qed.

Lemma blind_list_org_policies : stdout_blind (list_org_policies w).
Proof. unfold list_org_policies. repeat blind_step. Qed.

Lemma blind_constraint_transform : stdout_blind (constraint_transform w).
Proof.
  unfold constraint_transform.
  apply blind_bind; [apply blind_list_org_policies | intros ?; apply blind_ret].
Qed.

Lemma blind_upload_policy_file {A} : stdout_blind (@upload_policy_file cfg w A).
Proof.
  unfold upload_policy_file.
  apply blind_bind; [apply blind_constraint_transform | intros ?].
  repeat blind_step.
Qed.

Lemma blind_fetch_old_policies : stdout_blind (fetch_old_policies cfg w).
Proof.
  unfold fetch_old_policies. apply blind_bind; [apply blind_list_blobs|].
  intros file_list. case_bool_decide.
  - unfold download_policy_file. repeat blind_step.
  - apply blind_upload_policy_file.
Qed.

Lemma blind_create_twitter_connection :
  stdout_blind (create_twitter_connection cfg w).
Proof.
  unfold create_twitter_connection, get_twitter_secrets.
  repeat first [apply blind_get_latest_secret | blind_step].
Qed.

Lemma blind_post_to_slack l : stdout_blind (post_to_slack cfg w l).
Proof.
  unfold post_to_slack, slack_one.
  repeat first [apply blind_get_latest_secret
               | apply blind_create_twitter_connection | blind_step].
Qed.

Lemma blind_post_to_twitter l commit : stdout_blind (post_to_twitter cfg w l commit).
Proof.
  unfold post_to_twitter.
  apply blind_bind; [apply blind_create_twitter_connection | intros tweet].
  apply blind_for_each. intros policy. unfold tweet_one, update_status.
  apply blind_try_except; [|intros ? ? [= <-]; repeat blind_step].
  destruct tweet; repeat blind_step.
Qed.

Lemma blind_create_pr content : stdout_blind (create_pr cfg w content).
Proof.
  unfold create_pr.
  apply blind_bind; [apply blind_get_latest_secret | intros token].
  repeat first
    [ blind_step
    | match goal with
      | |- stdout_blind (if ?c then _ else _) => destruct c
      | |- stdout_blind (match ?c with Some _ => _ | None => _ end) => destruct c
      end ].
Qed.

Lemma blind_compare_policies : stdout_blind (compare_policies cfg w).
Proof.
  unfold compare_policies.
  apply blind_bind; [apply blind_fetch_old_policies | intros old].
  apply blind_bind; [apply blind_constraint_transform | intros current].
  case_bool_decide; [apply blind_print|].
  apply blind_bind; [apply blind_print | intros _].
  apply blind_bind.
  { unfold create_pr_file_content.
    apply blind_bind; [apply blind_list_org_policies | intros ?].
    apply blind_create_pr. }
  intros commit.
  apply blind_bind; [apply blind_post_to_slack | intros _].
  apply blind_bind; [apply blind_post_to_twitter | intros _].
  apply blind_upload_policy_file.
Qed.

End Blind.

(** [announce_kickoff] on an event with decodable data prints the message
    and then does what [compare_policies] does: the message is the first
    line printed and the lines of a run started directly follow it, with
    the same result, the same side effects and the same bucket. *)
Theorem announce_kickoff_runs_compare decode cfg w event data message b :
  event !! "data" = Some data ->
  decode data = inr message ->
  fst (announce_kickoff decode cfg w event (initial b)) = fst (run cfg w b)
  /\ stdout (snd (announce_kickoff decode cfg w event (initial b)))
     = message :: stdout (snd (run cfg w b))
  /\ trace (snd (announce_kickoff decode cfg w event (initial b)))
     = trace (snd (run cfg w b))
  /\ bucket (snd (announce_kickoff decode cfg w event (initial b)))
     = bucket (snd (run cfg w b)).
Proof.
  intros Hd Hm. unfold announce_kickoff, run, bind at 1. rewrite Hd, Hm.
  cbn [call ret]. unfold bind at 1. cbn [print].
  match goal with
  | |- context [compare_policies cfg w ?s] =>
      destruct (blind_compare_policies cfg w [message] s (initial b))
        as (Hr & Hb & _ & _ & Ht & Ho); [done|]
  end.
  done.
Qed.

Lemma announce_kickoff_runs_compare_witness :
  let decode data := if String.eqb data "c3RhcnQ=" then inr "start"
                     else inl (OtherException "Incorrect padding") in
  let w := sample_world (fun _ => ["constraints/a"; "constraints/b"]) in
  let b := sample_bucket (lines ["constraints/a"; "constraints/b"]) in
  let r := announce_kickoff decode sample_cfg w {[ "data" := "c3RhcnQ=" ]}
             (initial b) in
  fst r = Normal tt
  /\ stdout (snd r) = ["start"; "Org Policy File Downloaded from GCS Bucket";
                       "No new Org Policies Detected."]
  /\ trace (snd r) = [].
Proof.
  intros decode w b r.
  destruct (announce_kickoff_runs_compare decode sample_cfg w
              {[ "data" := "c3RhcnQ=" ]} "c3RhcnQ=" "start" b)
    as (Hr & Ho & Ht & _).
  - reflexivity.
  - reflexivity.
  - subst r. rewrite Hr, Ho, Ht. vm_compute.
    split; [reflexivity | split; reflexivity].
Defined.

(** [announce_kickoff] on an event without data, or with data that cannot be
    decoded, ends with an uncaught exception before anything is printed,
    asked or changed. *)
Theorem announce_kickoff_bad_event decode cfg w event st :
  event !! "data" = None
  \/ (exists data e, event !! "data" = Some data /\ decode data = inl e) ->
  exists e, announce_kickoff decode cfg w event st = (Raised e, st)
            /\ exit_status (fst (announce_kickoff decode cfg w event st)) = 1.
Proof.
  intros [Hd|(data & e & Hd & He)]; unfold announce_kickoff, bind at 1;
    rewrite Hd; [|rewrite He]; cbn; eauto.
Qed.

Lemma announce_kickoff_bad_event_witness :
  let decode (data : string) : exn + string :=
    inl (OtherException "Incorrect padding") in
  let w := sample_world (fun _ => ["constraints/a"]) in
  exists e, announce_kickoff decode sample_cfg w ∅ (initial ∅)
            = (Raised e, initial ∅).
Proof.
  intros decode w.
  destruct (announce_kickoff_bad_event decode sample_cfg w ∅ (initial ∅))
    as (e & Hr & _).
  - left. reflexivity.
  - exists e. exact Hr.
Defined.

(** ** Chat messages and social posts *)

Lemma slack_events_not_tweets url l :
  Forall (fun ev => tweets [ev] = []) (slack_events url l).
Proof. induction l; constructor; done. Qed.

Lemma github_not_tweets gh :
  Forall (fun ev => is_github ev = true) gh ->
  Forall (fun ev => tweets [ev] = []) gh.
Proof. induction 1 as [|[] gh Hev _ IH]; constructor; done. Qed.

(** In every run all the chat messages are sent before the first social
    post: after a social post no chat message follows, so a failure of
    the social notifier leaves every chat message sent. *)
Theorem chat_before_social cfg w b before content after :
  trace (snd (run cfg w b)) = before ++ EvTweet content :: after ->
  slack_posts after = [].
Proof.
  intros Hsplit.
  assert (Hshape : trace (snd (run cfg w b)) = []
                   \/ (exists c, trace (snd (run cfg w b))
                                = [EvUpload (POLICY_FILE cfg) c])
                   \/ exists new n r,
                        notified cfg w new [] b n r (snd (run cfg w b))).
  { destruct (b !! POLICY_FILE cfg) as [text|] eqn:Hb.
    - pose proof (run_found cfg w b text Hb) as H.
      destruct (listing w 0) as [current|].
      + case_decide as Hsort.
        * destruct H as (st' & -> & Ht & _). left. exact Ht.
        * destruct H as (st1 & E & Ht1 & Hb1 & Hn1).
          destruct (run cfg w b) as [r st'] eqn:Hrun. symmetry in E.
          apply notify_and_save_run in E. rewrite Ht1, Hb1, Hn1 in E.
          right. right. eauto.
      + destruct H as (st' & -> & Ht & _). left. exact Ht.
    - destruct (run_missing cfg w b Hb) as (st' & H).
      destruct (listing w 0) as [names|]; destruct H as (-> & Ht & _); eauto. }
  destruct Hshape as [Hnil|[[c Hone]|(new & n & r & Hn)]].
  - rewrite Hnil in Hsplit. by destruct before.
  - rewrite Hone in Hsplit. destruct before as [|x before]; [discriminate|].
    injection Hsplit as _ Hsplit. by destruct before.
  - destruct Hn as (gh & url & commit & sl & tw & up & Ht & Hgh & _ & _ & _ & _
                    & _ & Hend).
    cbn in Ht. rewrite Ht in Hsplit.
    assert (Hnot : ~ tweets [EvTweet content] = []) by discriminate.
    destruct (before_first_other _ gh _ before after (EvTweet content)
                (github_not_tweets gh Hgh) Hnot Hsplit) as (k & -> & Hrest).
    destruct (before_first_other _ (slack_events url sl) _ k after
                (EvTweet content) (slack_events_not_tweets url sl) Hnot Hrest)
      as (k' & -> & Hrest').
    assert (Hnone : slack_posts (tweet_events commit tw ++ up) = []).
    { destruct (tweet_events_show commit tw) as (T1 & _ & _).
      unfold slack_posts in *. rewrite omap_app, T1.
      destruct Hend as [(_ & names & _ & -> & _)|(_ & -> & _)]; reflexivity. }
    rewrite Hrest' in Hnone. unfold slack_posts in *.
    rewrite omap_app in Hnone. apply app_eq_nil in Hnone as [_ Hnone].
    exact Hnone.
Qed.

Lemma chat_before_social_witness :
  let w := sample_world (fun _ => ["constraints/a"; "constraints/b"]) in
  let b := sample_bucket (lines ["constraints/a"]) in
  slack_posts [EvUpload "policies.txt" (lines ["constraints/a"; "constraints/b"])]
  = [].
Proof.
  intros w b.
  apply (chat_before_social sample_cfg w b
           [EvCreateBranch "refs/heads/new_policies" "sha0";
            EvUpdateFile "policies/org_policy.json" "New Policies Detected"
              (JsonDumps (response_of ["constraints/a"; "constraints/b"]))
              "new_policies";
            EvCreatePull "New Policies Detected on 2020-07-01" "new_policies"
              "main";
            EvSlackPost
              (Some "secret of projects/project/secrets/slack/versions/latest")
              "New Organization Policy Detected: constraints/b"]
           "New Organization Policy Detected: b https://example.org/commit/1").
  vm_compute. reflexivity.
Defined.
